(** * MQTT MCP server: a model of [mqtt_mcp_server.py]

    The development follows the layout of the Python module:

    - Python text primitives used by the server ([str.replace], [str.lower],
      [str.strip], [in]) together with the fragments of the [re] and
      [fnmatch] libraries that the pattern matcher of [handle_search_topics]
      relies on;
    - the [paho] client as seen by the server (return codes, message
      objects, the record of calls made on the client);
    - [MQTTClientWrapper] with its callbacks and its three operations
      [discover_topics], [get_topic_value] and [publish_message];
    - a cooperative-scheduling model of concurrent [discover_topics] calls
      serialised by [self._lock].

    Text is modelled by [string]; every character stands for one code point
    in the range U+0000..U+00FF.  Time is a [Z] number of milliseconds.
    Logging is left out.  What the broker and the network thread of the
    client do is given by a [world]; the network thread hands messages to
    [_on_message] while the server is suspended or blocked. *)

From Stdlib Require Import ZArith NArith Ascii String List Lia Bool DecimalString.
From stdpp Require Import base option relations gmap strings list fin_maps.

Local Open Scope string_scope.
Local Open Scope Z_scope.

(** ** Python text primitives *)

Module Py.

(** [c in s] for a one-character needle. *)
Fixpoint contains_char (c : ascii) (s : string) : bool :=
  match s with
  | EmptyString => false
  | String d s' => Ascii.eqb c d || contains_char c s'
  end.

(** [s.replace(old, new)] for a one-character [old]. *)
Fixpoint replace_char (old : ascii) (new : string) (s : string) : string :=
  match s with
  | EmptyString => EmptyString
  | String d s' =>
      if Ascii.eqb d old then new +:+ replace_char old new s'
      else String d (replace_char old new s')
  end.

(** [str.lower] on one code point of U+0000..U+00FF: the letters A-Z and
    U+00C0..U+00DE (the multiplication sign U+00D7 apart) move up by 32. *)
Definition chr_lower (c : ascii) : ascii :=
  let n := N_of_ascii c in
  if ((65 <=? n) && (n <=? 90) || (192 <=? n) && (n <=? 222) && negb (n =? 215))%N
  then ascii_of_N (n + 32) else c.

Fixpoint lower (s : string) : string :=
  match s with
  | EmptyString => EmptyString
  | String c s' => String (chr_lower c) (lower s')
  end.

(** [str.isspace] on one code point of U+0000..U+00FF. *)
Definition chr_isspace (c : ascii) : bool :=
  let n := N_of_ascii c in
  ((9 <=? n) && (n <=? 13) || (28 <=? n) && (n <=? 32) || (n =? 133) || (n =? 160))%N.

Fixpoint lstrip (s : string) : string :=
  match s with
  | EmptyString => EmptyString
  | String c s' => if chr_isspace c then lstrip s' else s
  end.

Fixpoint rev (s : string) : string :=
  match s with
  | EmptyString => EmptyString
  | String c s' => rev s' +:+ String c EmptyString
  end.

(** [s.strip()] *)
Definition strip (s : string) : string := rev (lstrip (rev (lstrip s))).

(** Truth value of a string: [not s] holds of the empty string only. *)
Definition truthy (s : string) : bool :=
  match s with EmptyString => false | String _ _ => true end.

Fixpoint startswith (p s : string) : bool :=
  match p, s with
  | EmptyString, _ => true
  | String a p', String b s' => Ascii.eqb a b && startswith p' s'
  | String _ _, EmptyString => false
  end.

(** [sub in s] *)
Fixpoint contains (sub s : string) : bool :=
  startswith sub s ||
  match s with
  | EmptyString => false
  | String _ s' => contains sub s'
  end.

(** [str(n)] for an integer. *)
Definition str_of_Z (n : Z) : string := NilZero.string_of_int (Z.to_int n).

End Py.

(** ** The regular-expression fragment behind [re.match] and [fnmatch]

    A pattern of the fragment is a sequence of one-character atoms, each
    with an optional repetition.  Whether a subject is accepted does not
    depend on the order in which a backtracking matcher tries the
    alternatives, so greedy repetition is not distinguished. *)

Module Re.

Inductive atom :=
  | Lit (c : ascii)            (* an ordinary character *)
  | Dot                        (* [.]: any character but a newline *)
  | Any                        (* [.] under DOTALL *)
  | OneOf (cs : list ascii)    (* [[...]] *)
  | NoneOf (cs : list ascii).  (* [[^...]] *)

Inductive quant := One | Opt | Star | Plus.

Definition item : Type := atom * quant.

Definition newline : ascii := "010"%char.

Definition mem (c : ascii) (cs : list ascii) : bool :=
  existsb (Ascii.eqb c) cs.

Definition accepts (a : atom) (c : ascii) : bool :=
  match a with
  | Lit d => Ascii.eqb c d
  | Dot => negb (Ascii.eqb c newline)
  | Any => true
  | OneOf cs => mem c cs
  | NoneOf cs => negb (mem c cs)
  end.

(** [a*] followed by the continuation [k]. *)
Fixpoint star (a : atom) (k : string -> bool) (s : string) : bool :=
  k s ||
  match s with
  | EmptyString => false
  | String c s' => accepts a c && star a k s'
  end.

(** Every character of [s] is one that [a] accepts. *)
Fixpoint all_accept (a : atom) (s : string) : bool :=
  match s with
  | EmptyString => true
  | String c s' => accepts a c && all_accept a s'
  end.

Definition one (a : atom) (k : string -> bool) (s : string) : bool :=
  match s with
  | EmptyString => false
  | String c s' => accepts a c && k s'
  end.

(** The items [r] match a prefix of [s] and [k] accepts what is left. *)
Fixpoint run (r : list item) (k : string -> bool) (s : string) : bool :=
  match r with
  | [] => k s
  | (a, q) :: r' =>
      match q with
      | One => one a (run r' k) s
      | Opt => one a (run r' k) s || run r' k s
      | Star => star a (run r' k) s
      | Plus => one a (star a (run r' k)) s
      end
  end.

(** [$]: the end of the subject, or just before a newline that ends it. *)
Definition at_dollar (s : string) : bool :=
  match s with
  | EmptyString => true
  | String c EmptyString => Ascii.eqb c newline
  | _ => false
  end.

(** [\Z]: the end of the subject. *)
Definition at_end (s : string) : bool :=
  match s with EmptyString => true | _ => false end.

(** *** Reading the text of a pattern

    The reader accepts ordinary characters, [.], the classes [[abc]] and
    [[^abc]] whose members are ordinary, and one of [*], [+], [?] after an
    atom.  Anything else ([\], groups, alternation, braces, inner anchors,
    ranges, a repetition after a repetition or with nothing to repeat) is
    outside the fragment and yields [None]. *)

Inductive mode :=
  | Normal (quantifiable : bool)
  | ClassOpen
  | Class (neg : bool) (members : list ascii).

Definition is_quant (c : ascii) : option quant :=
  if Ascii.eqb c "*" then Some Star
  else if Ascii.eqb c "+" then Some Plus
  else if Ascii.eqb c "?" then Some Opt
  else None.

Definition is_special (c : ascii) : bool :=
  mem c ["^"; "$"; "\"; "("; ")"; "{"; "}"; "|"; "]"]%char.

Definition class_special (c : ascii) : bool :=
  mem c ["\"; "-"; "["; "^"; "]"]%char.

(** [acc] holds the items read so far, last one first. *)
Fixpoint read (s : string) (m : mode) (acc : list item) : option (list item) :=
  match s with
  | EmptyString =>
      match m with
      | Normal _ => Some (List.rev acc)
      | _ => None
      end
  | String c s' =>
      match m with
      | Normal q =>
          match is_quant c with
          | Some qu =>
              match q, acc with
              | true, (a, _) :: acc' => read s' (Normal false) ((a, qu) :: acc')
              | _, _ => None
              end
          | None =>
              if Ascii.eqb c "[" then read s' ClassOpen acc
              else if Ascii.eqb c "." then read s' (Normal true) ((Dot, One) :: acc)
              else if is_special c then None
              else read s' (Normal true) ((Lit c, One) :: acc)
          end
      | ClassOpen =>
          if Ascii.eqb c "^" then read s' (Class true []) acc
          else if class_special c then None
          else read s' (Class false [c]) acc
      | Class neg ms =>
          if Ascii.eqb c "]" then
            match ms with
            | [] => None
            | _ =>
                let a := if neg then NoneOf (List.rev ms) else OneOf (List.rev ms) in
                read s' (Normal true) ((a, One) :: acc)
            end
          else if class_special c then None
          else read s' (Class neg (c :: ms)) acc
      end
  end.

(** Splits off the last character of a non-empty string. *)
Fixpoint unsnoc (s : string) : option (string * ascii) :=
  match s with
  | EmptyString => None
  | String c s' =>
      match unsnoc s' with
      | None => Some (EmptyString, c)
      | Some (i, l) => Some (String c i, l)
      end
  end.

(** A pattern of the shape [^body$]. *)
Definition compile (p : string) : option (list item) :=
  match p with
  | String "^" rest =>
      match unsnoc rest with
      | Some (body, "$"%char) => read body (Normal false) []
      | _ => None
      end
  | _ => None
  end.

(** [re.match(p, s)] is not [None]; [None] here means that [p] is outside
    the fragment. *)
Definition match_ (p s : string) : option bool :=
  match compile p with
  | Some r => Some (run r at_dollar s)
  | None => None
  end.

End Re.

(** ** [fnmatch.fnmatch] on a POSIX host

    [os.path.normcase] is the identity there; [*] becomes [.*], [?] becomes
    [.], every other character stands for itself, and the whole name has to
    match ([(?s:...)\Z]).  Bracket expressions are outside the fragment. *)

Module Fnmatch.

Fixpoint translate (pat : string) : option (list Re.item) :=
  match pat with
  | EmptyString => Some []
  | String c pat' =>
      if Ascii.eqb c "[" then None
      else
        let i := if Ascii.eqb c "*" then (Re.Any, Re.Star)
                 else if Ascii.eqb c "?" then (Re.Any, Re.One)
                 else (Re.Lit c, Re.One) in
        match translate pat' with
        | Some r => Some (i :: r)
        | None => None
        end
  end.

Definition fnmatch (name pat : string) : option bool :=
  match translate pat with
  | Some r => Some (Re.run r Re.at_end name)
  | None => None
  end.

End Fnmatch.

(** ** The pattern matcher of [handle_search_topics] *)

Inductive tier := BrokerWildcard | Glob | Keyword.

(** [has_wildcards = any(c in pattern for c in ["*", "?", "+", "#"])] *)
Definition has_wildcards (pattern : string) : bool :=
  existsb (fun c => Py.contains_char c pattern) ["*"; "?"; "+"; "#"]%char.

(** The branch of the loop body taken for [pattern]. *)
Definition classify (pattern : string) : tier :=
  if has_wildcards pattern then
    if Py.contains_char "+" pattern || Py.contains_char "#" pattern
    then BrokerWildcard
    else Glob
  else Keyword.

(** [pattern.replace("+", "[^/]+").replace("#", ".*")] *)
Definition mqtt_pattern (pattern : string) : string :=
  Py.replace_char "#" ".*" (Py.replace_char "+" "[^/]+" pattern).

(** The value of [matched] at the end of one iteration of the loop over
    [all_topics.items()]. *)
Definition topic_matches (pattern topic_path : string) : option bool :=
  if has_wildcards pattern then
    if Py.contains_char "+" pattern || Py.contains_char "#" pattern then
      Re.match_ ("^" +:+ mqtt_pattern pattern +:+ "$") topic_path
    else
      Fnmatch.fnmatch topic_path ("*" +:+ pattern +:+ "*")
  else
    Some (Py.contains (Py.lower pattern) (Py.lower topic_path)).


(** ** Reference reading of broker wildcards

    The standard meaning of a topic filter, level by level: [+] stands for
    exactly one level, and [#], as the last level, for zero or more
    remaining levels, so that ["a/#"] also covers the parent ["a"].  It is
    not taken from the server; the matcher above is compared with it. *)

Module FilterSpec.

(** [s.split(sep)] *)
Fixpoint split_on (sep : ascii) (s : string) : list string :=
  match s with
  | EmptyString => [EmptyString]
  | String c s' =>
      if Ascii.eqb c sep then EmptyString :: split_on sep s'
      else match split_on sep s' with
           | h :: t => String c h :: t
           | [] => [String c EmptyString]
           end
  end.

Fixpoint levels_match (filter levels : list string) : bool :=
  match filter with
  | [] => match levels with [] => true | _ => false end
  | f :: filter' =>
      if String.eqb f "#" && match filter' with [] => true | _ => false end
      then true
      else match levels with
           | [] => false
           | l :: levels' =>
               (String.eqb f "+" || String.eqb f l) && levels_match filter' levels'
           end
  end.

Definition filter_matches (filter topic_path : string) : bool :=
  levels_match (split_on "/" filter) (split_on "/" topic_path).

End FilterSpec.

(** ** The paho client as the server sees it *)

Definition MQTT_ERR_AGAIN : Z := -1.
Definition MQTT_ERR_SUCCESS : Z := 0.
Definition MQTT_ERR_NO_CONN : Z := 4.
Definition MQTT_ERR_QUEUE_SIZE : Z := 15.

(** [message.payload] is a byte string: either it decodes as UTF-8 to
    [text], or it does not and [str(message.payload)] is [repr]. *)
Inductive payload_bytes :=
  | Utf8 (text : string)
  | Undecodable (repr : string).

Record MQTTMessage := {
  msg_topic : string;
  msg_payload : payload_bytes;
  msg_qos : Z;
  msg_retain : bool
}.

(** The object returned by [client.publish]. *)
Record MQTTMessageInfo := {
  info_rc : Z;
  info_mid : Z
}.

(** Calls made on [self.client], in the order they were made. *)
Inductive call :=
  | CallConnect
  | CallLoopStart
  | CallSubscribe (topic : string) (qos : Z)
  | CallUnsubscribe (topic : string)
  | CallPublish (topic payload : string) (qos : Z) (retain : bool)
  | CallWaitForPublish.

Inductive exn :=
  | ConnectionError (msg : string)
  | ValueError (msg : string)
  | RuntimeError (msg : string)
  | Exception_ (msg : string).

(** [isinstance(e, ConnectionError)], the test of the handlers' first
    [except] clause. *)
Definition is_connection_error (e : exn) : bool :=
  match e with ConnectionError _ => true | _ => false end.

Definition is_value_error (e : exn) : bool :=
  match e with ValueError _ => true | _ => false end.

(** [str(e)] *)
Definition exn_message (e : exn) : string :=
  match e with
  | ConnectionError msg | ValueError msg | RuntimeError msg | Exception_ msg => msg
  end.

(** The [except] clauses of [handle_list_uns_topics]. *)
Definition handle_list_uns_topics_error (e : exn) : string :=
  if is_connection_error e then "Connection error: " +:+ exn_message e
  else "Error discovering topics: " +:+ exn_message e.

(** The [except] clauses of [handle_publish_message]. *)
Definition handle_publish_message_error (e : exn) : string :=
  if is_value_error e then "Validation error: " +:+ exn_message e
  else if is_connection_error e then "Connection error: " +:+ exn_message e
  else "Error publishing message: " +:+ exn_message e.

Inductive outcome (A : Type) :=
  | Returned (a : A)
  | Raised (e : exn).
Arguments Returned {A} a.
Arguments Raised {A} e.

(** A message handed to [_on_message] by the network thread, with the
    value [time.time()] has in the callback. *)
Record arrival := {
  at_time : Z;
  packet : MQTTMessage
}.

(** What the broker and the network thread do, as far as the server can
    observe it. *)
Record world := {
  (* [client.connect] raises *)
  connect_raises : bool;
  (* the reason code given to [_on_connect] during the 10 s wait of
     [connect], if the callback fires at all *)
  connack : option Z;
  (* how long [connect] waits, in ms *)
  connect_wait : N;
  (* first component of [client.subscribe(topic, qos=1)] *)
  subscribe_rc : string -> Z;
  (* result of [client.publish(topic, payload, qos=qos, retain=retain)] *)
  publish_info : string -> string -> Z -> bool -> MQTTMessageInfo;
  (* messages delivered while the server is suspended for the k-th time *)
  arrivals : nat -> list arrival;
  (* how much later than asked the k-th suspension ends, in ms *)
  overshoot : nat -> N
}.

(** [MQTTMessageInfo.wait_for_publish] of paho-mqtt 2.x, the version the
    wrapper is written for ([CallbackAPIVersion.VERSION2]): it raises
    [ValueError] when the message was refused for a full queue and
    [RuntimeError] for any other positive return code, and waits for the
    acknowledgment otherwise.  The text of the [RuntimeError] ends with the
    library's description of the code, which is left out here. *)
Definition wait_for_publish (info : MQTTMessageInfo) : option exn :=
  if info_rc info =? MQTT_ERR_QUEUE_SIZE
  then Some (ValueError "Message is not queued due to ERR_QUEUE_SIZE")
  else if info_rc info =? MQTT_ERR_AGAIN then None
  else if 0 <? info_rc info then Some (RuntimeError "Message publish failed")
  else None.

(** ** [MQTTClientWrapper] *)

(** An entry of [self.messages]. *)
Record snapshot := {
  snap_topic : string;
  snap_payload : string;
  snap_qos : Z;
  snap_retain : bool;
  snap_timestamp : Z
}.

Record MQTTClientWrapper := {
  connected : bool;
  messages : gmap string snapshot;
  _message_event : bool;
  _reconnect_count : nat;
  (* the surroundings of the object: the clock read by [time.time()], the
     number of suspensions so far, the calls made on [self.client] *)
  now : Z;
  tick : nat;
  calls : list call
}.

Definition set_connected (b : bool) (st : MQTTClientWrapper) : MQTTClientWrapper :=
  {| connected := b; messages := messages st; _message_event := _message_event st;
     _reconnect_count := _reconnect_count st; now := now st; tick := tick st;
     calls := calls st |}.

Definition set_messages (m : gmap string snapshot) (st : MQTTClientWrapper) : MQTTClientWrapper :=
  {| connected := connected st; messages := m; _message_event := _message_event st;
     _reconnect_count := _reconnect_count st; now := now st; tick := tick st;
     calls := calls st |}.

Definition set_message_event (b : bool) (st : MQTTClientWrapper) : MQTTClientWrapper :=
  {| connected := connected st; messages := messages st; _message_event := b;
     _reconnect_count := _reconnect_count st; now := now st; tick := tick st;
     calls := calls st |}.

Definition set_reconnect_count (n : nat) (st : MQTTClientWrapper) : MQTTClientWrapper :=
  {| connected := connected st; messages := messages st; _message_event := _message_event st;
     _reconnect_count := n; now := now st; tick := tick st; calls := calls st |}.

Definition advance (ms : Z) (ticks : nat) (st : MQTTClientWrapper) : MQTTClientWrapper :=
  {| connected := connected st; messages := messages st; _message_event := _message_event st;
     _reconnect_count := _reconnect_count st; now := now st + ms; tick := tick st + ticks;
     calls := calls st |}.

Definition record_call (c : call) (st : MQTTClientWrapper) : MQTTClientWrapper :=
  {| connected := connected st; messages := messages st; _message_event := _message_event st;
     _reconnect_count := _reconnect_count st; now := now st; tick := tick st;
     calls := calls st ++ [c] |}.

(** [ReasonCode.is_failure] *)
Definition is_failure (reason_code : Z) : bool := 128 <=? reason_code.

Definition _on_connect (reason_code : Z) (st : MQTTClientWrapper) : MQTTClientWrapper :=
  if (reason_code =? 0) || negb (is_failure reason_code)
  then set_reconnect_count 0 (set_connected true st)
  else st.

Definition _on_disconnect (reason_code : Z) (st : MQTTClientWrapper) : MQTTClientWrapper :=
  set_reconnect_count (S (_reconnect_count st)) (set_connected false st).

(** The [try]/[except UnicodeDecodeError] of [_on_message]. *)
Definition decode (p : payload_bytes) : string :=
  match p with
  | Utf8 text => text
  | Undecodable repr => repr
  end.

Definition snapshot_of (time : Z) (message : MQTTMessage) : snapshot :=
  {| snap_topic := msg_topic message;
     snap_payload := decode (msg_payload message);
     snap_qos := msg_qos message;
     snap_retain := msg_retain message;
     snap_timestamp := time |}.

(** [time] is the value of [time.time()] in the callback. *)
Definition _on_message (time : Z) (message : MQTTMessage) (st : MQTTClientWrapper)
  : MQTTClientWrapper :=
  set_message_event true
    (set_messages (<[msg_topic message := snapshot_of time message]> (messages st)) st).

Definition deliver (st : MQTTClientWrapper) (a : arrival) : MQTTClientWrapper :=
  _on_message (at_time a) (packet a) st.

(** The server gives up control for at least [delay] ms: the network
    thread runs [_on_message] on what arrives meanwhile. *)
Definition suspend (w : world) (delay : Z) (st : MQTTClientWrapper) : MQTTClientWrapper :=
  advance (Z.max 0 delay + Z.of_N (overshoot w (tick st))) 1
    (foldl deliver st (arrivals w (tick st))).

(** The server blocks in a library call for a while; the network thread
    keeps running. *)
Definition block (w : world) (st : MQTTClientWrapper) : MQTTClientWrapper :=
  suspend w 0 st.

Definition connect (w : world) (st : MQTTClientWrapper) : bool * MQTTClientWrapper :=
  let st := record_call CallConnect st in
  if connect_raises w then (false, st)
  else
    let st := record_call CallLoopStart st in
    let st := match connack w with
              | Some reason_code => _on_connect reason_code st
              | None => st
              end in
    let st := advance (Z.of_N (connect_wait w)) 0 st in
    (connected st, st).

Definition ensure_connected (w : world) (st : MQTTClientWrapper) : bool * MQTTClientWrapper :=
  if negb (connected st) then connect w st else (true, st).

(** *** [discover_topics] *)

(** From the acquisition of [self._lock] to [await asyncio.sleep(timeout)]. *)
Definition discover_enter (w : world) (base_path : string) (st : MQTTClientWrapper)
  : option exn * MQTTClientWrapper :=
  let st := set_messages ∅ st in
  let st := set_message_event false st in
  let st := record_call (CallSubscribe base_path 1) st in
  if negb (subscribe_rc w base_path =? MQTT_ERR_SUCCESS)
  then (Some (Exception_ ("Failed to subscribe to " +:+ base_path)), st)
  else (None, st).

(** From the end of the sleep to the release of [self._lock]. *)
Definition discover_exit (base_path : string) (st : MQTTClientWrapper)
  : gmap string snapshot * MQTTClientWrapper :=
  let st := record_call (CallUnsubscribe base_path) st in
  (messages st, st).

Definition discover_topics (w : world) (base_path : string) (timeout : Z)
    (st : MQTTClientWrapper) : outcome (gmap string snapshot) * MQTTClientWrapper :=
  let '(ok, st) := ensure_connected w st in
  if negb ok then (Raised (ConnectionError "Not connected to MQTT broker"), st)
  else
    match discover_enter w base_path st with
    | (Some e, st) => (Raised e, st)
    | (None, st) =>
        let st := suspend w timeout st in
        let '(result, st) := discover_exit base_path st in
        (Returned result, st)
    end.

(** *** [get_topic_value] *)

(** The polling loop; [None] when [fuel] iterations were not enough to
    leave it. *)
Fixpoint poll (w : world) (fuel : nat) (topic : string) (start timeout : Z)
    (st : MQTTClientWrapper) : option MQTTClientWrapper :=
  match fuel with
  | O => None
  | S fuel' =>
      if now st - start <? timeout then
        if bool_decide (is_Some (messages st !! topic)) then Some st
        else poll w fuel' topic start timeout (suspend w 100 st)
      else Some st
  end.

Definition get_topic_value (w : world) (fuel : nat) (topic : string) (timeout : Z)
    (st : MQTTClientWrapper)
  : option (outcome (option snapshot) * MQTTClientWrapper) :=
  let '(ok, st) := ensure_connected w st in
  if negb ok then Some (Raised (ConnectionError "Not connected to MQTT broker"), st)
  else
    let st := if bool_decide (is_Some (messages st !! topic))
              then set_messages (delete topic (messages st)) st else st in
    let st := set_message_event false st in
    let st := record_call (CallSubscribe topic 1) st in
    if negb (subscribe_rc w topic =? MQTT_ERR_SUCCESS)
    then Some (Raised (Exception_ ("Failed to subscribe to " +:+ topic)), st)
    else
      let start := now st in
      match poll w fuel topic start timeout st with
      | None => None
      | Some st =>
          let st := record_call (CallUnsubscribe topic) st in
          Some (Returned (messages st !! topic), st)
      end.

(** Iterations that always suffice for a wait of [timeout] ms. *)
Definition poll_fuel (timeout : Z) : nat := Z.to_nat (timeout / 100) + 2.

(** *** [publish_message] *)

Inductive publish_result :=
  | PublishSuccess (topic payload : string) (retain : bool) (qos : Z)
      (message_id : Z) (timestamp : Z)
  | PublishFailure (topic : string) (error : string) (error_code : Z).

(** The entry ["success"] of the result. *)
Definition success (r : publish_result) : bool :=
  match r with PublishSuccess _ _ _ _ _ _ => true | PublishFailure _ _ _ => false end.

Definition publish_message (w : world) (topic payload : string) (retain : bool) (qos : Z)
    (st : MQTTClientWrapper) : outcome publish_result * MQTTClientWrapper :=
  let '(ok, st) := ensure_connected w st in
  if negb ok then (Raised (ConnectionError "Not connected to MQTT broker"), st)
  else if negb (bool_decide (qos ∈ [0; 1; 2])) then
    (Raised (ValueError ("Invalid QoS level: " +:+ Py.str_of_Z qos +:+ ". Must be 0, 1, or 2.")), st)
  else if negb (Py.truthy topic) || negb (Py.truthy (Py.strip topic)) then
    (Raised (ValueError "Topic cannot be empty"), st)
  else if Py.contains_char "#" topic || Py.contains_char "+" topic then
    (Raised (ValueError "Cannot publish to wildcard topics (# or +)"), st)
  else
    let result := publish_info w topic payload qos retain in
    let st := record_call (CallPublish topic payload qos retain) st in
    let waited :=
      if 0 <? qos then
        let st := record_call CallWaitForPublish st in
        match wait_for_publish result with
        | Some e => (Some e, st)
        | None => (None, block w st)
        end
      else (None, st) in
    match waited with
    | (Some e, st) => (Raised e, st)
    | (None, st) =>
        if info_rc result =? MQTT_ERR_SUCCESS then
          (Returned (PublishSuccess topic payload retain qos (info_mid result) (now st)), st)
        else
          (Returned (PublishFailure topic
                       ("Publish failed with error code: " +:+ Py.str_of_Z (info_rc result))
                       (info_rc result)), st)
    end.

(** ** Concurrent [discover_topics] calls

    Tasks of the event loop run until they suspend.  A call suspends at
    [async with self._lock] when the lock is taken and at
    [await asyncio.sleep(timeout)]; the network thread may run
    [_on_message] between any two steps.  Any waiting task may get a free
    lock, which covers the first-come order of [asyncio.Lock]. *)

Module Sched.

Inductive pc :=
  | Created (base_path : string) (timeout : Z)
  | WaitingLock (base_path : string) (timeout : Z)
  | Dwelling (base_path : string)
  | Finished (r : outcome (gmap string snapshot)).

Record system := {
  self : MQTTClientWrapper;
  locked : bool;
  tasks : list pc
}.

(** Task [i] takes the free lock and runs up to the sleep. *)
Definition enter (w : world) (i : nat) (base_path : string) (st : MQTTClientWrapper)
    (ts : list pc) : system :=
  match discover_enter w base_path st with
  | (Some e, st') =>
      {| self := st'; locked := false; tasks := <[i := Finished (Raised e)]> ts |}
  | (None, st') =>
      {| self := st'; locked := true; tasks := <[i := Dwelling base_path]> ts |}
  end.

Inductive step (w : world) : system -> system -> Prop :=
  | step_refused s i p t st' :
      tasks s !! i = Some (Created p t) ->
      ensure_connected w (self s) = (false, st') ->
      step w s {| self := st'; locked := locked s;
                  tasks := <[i := Finished (Raised (ConnectionError "Not connected to MQTT broker"))]> (tasks s) |}
  | step_blocked s i p t st' :
      tasks s !! i = Some (Created p t) ->
      ensure_connected w (self s) = (true, st') ->
      locked s = true ->
      step w s {| self := st'; locked := true; tasks := <[i := WaitingLock p t]> (tasks s) |}
  | step_start s i p t st' :
      tasks s !! i = Some (Created p t) ->
      ensure_connected w (self s) = (true, st') ->
      locked s = false ->
      step w s (enter w i p st' (tasks s))
  | step_acquire s i p t :
      tasks s !! i = Some (WaitingLock p t) ->
      locked s = false ->
      step w s (enter w i p (self s) (tasks s))
  | step_wake s i p :
      tasks s !! i = Some (Dwelling p) ->
      step w s {| self := snd (discover_exit p (self s)); locked := false;
                  tasks := <[i := Finished (Returned (fst (discover_exit p (self s))))]> (tasks s) |}
  | step_message s a :
      step w s {| self := deliver (self s) a; locked := locked s; tasks := tasks s |}.

(** All calls made, none started. *)
Definition init (st : MQTTClientWrapper) (requests : list (string * Z)) : system :=
  {| self := st; locked := false;
     tasks := map (fun r => Created (fst r) (snd r)) requests |}.

Definition dwelling (s : system) (i : nat) : Prop :=
  exists p, tasks s !! i = Some (Dwelling p).

(** The lock is held exactly while some call is inside its dwell, and at
    most one call is. *)
Definition exclusive (s : system) : Prop :=
  (locked s = true <-> exists i, dwelling s i) /\
  (forall i j, dwelling s i -> dwelling s j -> i = j).

End Sched.

(** ** What arrives during a call *)

(** The arrivals of the suspensions numbered [a], ..., [b - 1], in order. *)
Definition window (w : world) (a b : nat) : list arrival :=
  flat_map (arrivals w) (seq a (b - a)).

(** The snapshot of the last arrival on [topic], if there is one. *)
Fixpoint latest (topic : string) (l : list arrival) : option snapshot :=
  match l with
  | [] => None
  | a :: l' =>
      match latest topic l' with
      | Some s => Some s
      | None =>
          if String.eqb (msg_topic (packet a)) topic
          then Some (snapshot_of (at_time a) (packet a))
          else None
      end
  end.

(** The cache after [_on_message] has run on each arrival of [l]. *)
Definition cache_after (m : gmap string snapshot) (l : list arrival)
  : gmap string snapshot :=
  foldl (fun m a => <[msg_topic (packet a) := snapshot_of (at_time a) (packet a)]> m) m l.

(** ** Sample worlds and states *)

Module Sample.

Definition info_ok : MQTTMessageInfo := {| info_rc := MQTT_ERR_SUCCESS; info_mid := 1 |}.

(** A broker that accepts everything and sends nothing. *)
Definition quiet : world :=
  {| connect_raises := false; connack := Some 0; connect_wait := 0%N;
     subscribe_rc := fun _ => MQTT_ERR_SUCCESS;
     publish_info := fun _ _ _ _ => info_ok;
     arrivals := fun _ => []; overshoot := fun _ => 0%N |}.

(** No broker at the configured address. *)
Definition unreachable : world :=
  {| connect_raises := true; connack := None; connect_wait := 0%N;
     subscribe_rc := fun _ => MQTT_ERR_NO_CONN;
     publish_info := fun _ _ _ _ => {| info_rc := MQTT_ERR_NO_CONN; info_mid := 1 |};
     arrivals := fun _ => []; overshoot := fun _ => 0%N |}.

(** The session is lost and the client has not noticed yet: subscribe and
    publish report [MQTT_ERR_NO_CONN]. *)
Definition dropped : world :=
  {| connect_raises := false; connack := Some 0; connect_wait := 0%N;
     subscribe_rc := fun _ => MQTT_ERR_NO_CONN;
     publish_info := fun _ _ _ _ => {| info_rc := MQTT_ERR_NO_CONN; info_mid := 1 |};
     arrivals := fun _ => []; overshoot := fun _ => 0%N |}.

Definition temp72 : MQTTMessage :=
  {| msg_topic := "sensors/room1/temp"; msg_payload := Utf8 "72";
     msg_qos := 1; msg_retain := true |}.

Definition temp73 : MQTTMessage :=
  {| msg_topic := "sensors/room1/temp"; msg_payload := Utf8 "73";
     msg_qos := 1; msg_retain := false |}.

(** The broker of Scenario A: a retained value arrives during the first
    suspension, a live one during the second. *)
Definition room1 : world :=
  {| connect_raises := false; connack := Some 0; connect_wait := 0%N;
     subscribe_rc := fun _ => MQTT_ERR_SUCCESS;
     publish_info := fun _ _ _ _ => info_ok;
     arrivals := fun k =>
       match k with
       | O => [ {| at_time := 40; packet := temp72 |} ]
       | S O => [ {| at_time := 140; packet := temp73 |} ]
       | _ => []
       end;
     overshoot := fun _ => 0%N |}.

Definition offline : MQTTClientWrapper :=
  {| connected := false; messages := ∅; _message_event := false;
     _reconnect_count := 0; now := 0; tick := 0; calls := [] |}.

Definition online : MQTTClientWrapper :=
  {| connected := true; messages := ∅; _message_event := false;
     _reconnect_count := 0; now := 0; tick := 0; calls := [] |}.

(** Connected, with one value cached by an earlier call. *)
Definition online_cached : MQTTClientWrapper :=
  {| connected := true;
     messages := {[ "sensors/room1/temp" := snapshot_of 0 temp72 ]};
     _message_event := true; _reconnect_count := 0; now := 0; tick := 0; calls := [] |}.

(** Two [discover_topics("#", 3)] calls, the first one inside its dwell. *)
Definition two_calls : Sched.system :=
  Sched.init online [("#", 3000); ("#", 3000)].

Definition first_dwelling : Sched.system :=
  Sched.enter quiet 0 "#" online (Sched.tasks two_calls).

Definition second_blocked : Sched.system :=
  {| Sched.self := Sched.self first_dwelling; Sched.locked := true;
     Sched.tasks := <[1%nat := Sched.WaitingLock "#" 3000]> (Sched.tasks first_dwelling) |}.

End Sample.

(** ** Reason codes *)

(** A reason code reaches the callbacks as a [ReasonCode] object, which
    has a numeric value and a name ([str(reason_code)]), or as a plain
    integer. *)
Inductive reason :=
  | ReasonObject (value : Z) (name : string)
  | ReasonInt (n : Z).

(** The dictionary of [_get_reason_string]. *)
Definition reason_map : list (Z * string) :=
  [ (0, "Normal disconnection");
    (1, "Incorrect protocol version");
    (2, "Invalid client identifier");
    (3, "Server unavailable");
    (4, "Bad username or password");
    (5, "Not authorized");
    (7, "Unexpected disconnect (no DISCONNECT packet)");
    (16, "Normal disconnection");
    (128, "Unspecified error");
    (129, "Malformed packet");
    (130, "Protocol error");
    (131, "Implementation specific error");
    (132, "Unsupported protocol version");
    (133, "Client identifier not valid");
    (134, "Bad username or password");
    (135, "Not authorized");
    (136, "Server unavailable");
    (137, "Server busy");
    (138, "Banned");
    (139, "Server shutting down");
    (140, "Bad authentication method");
    (141, "Keep alive timeout");
    (142, "Session taken over");
    (143, "Topic filter invalid");
    (144, "Topic name invalid");
    (147, "Receive maximum exceeded");
    (148, "Topic alias invalid");
    (149, "Packet too large");
    (150, "Message rate too high");
    (151, "Quota exceeded");
    (152, "Administrative action");
    (153, "Payload format invalid");
    (154, "Retain not supported");
    (155, "QoS not supported");
    (156, "Use another server");
    (157, "Server moved");
    (158, "Shared subscriptions not supported");
    (159, "Connection rate exceeded");
    (160, "Maximum connect time");
    (161, "Subscription identifiers not supported");
    (162, "Wildcard subscriptions not supported") ].

(** [d.get(k, default)] on a dictionary written as its list of items. *)
Fixpoint dict_get (k : Z) (d : list (Z * string)) (default : string) : string :=
  match d with
  | [] => default
  | (k', v) :: d' => if k =? k' then v else dict_get k d' default
  end.

Definition _get_reason_string (reason_code : reason) : string :=
  match reason_code with
  | ReasonObject _ name => name
  | ReasonInt n =>
      dict_get (if n =? 0 then 0 else n) reason_map
        ("Unknown (" +:+ Py.str_of_Z n +:+ ")")
  end.

Inductive level := INFO | WARNING.

(** The severity at which [_on_disconnect] logs the disconnection. *)
Definition _on_disconnect_level (reason_code : reason) : level :=
  let reason_str := _get_reason_string reason_code in
  let is_zero := match reason_code with
                 | ReasonObject value _ => value =? 0
                 | ReasonInt n => n =? 0
                 end in
  if is_zero || String.eqb reason_str "Normal disconnection" then INFO else WARNING.

(** ** What the network thread does to the wrapper *)

Inductive callback :=
  | OnConnect (reason_code : Z)
  | OnDisconnect (reason_code : Z)
  | OnMessage (time : Z) (message : MQTTMessage).

Definition run_callback (st : MQTTClientWrapper) (cb : callback) : MQTTClientWrapper :=
  match cb with
  | OnConnect reason_code => _on_connect reason_code st
  | OnDisconnect reason_code => _on_disconnect reason_code st
  | OnMessage time message => _on_message time message st
  end.




(** The messages among the callbacks, in order. *)
Fixpoint arrivals_of (cbs : list callback) : list arrival :=
  match cbs with
  | [] => []
  | OnMessage time message :: cbs' =>
      {| at_time := time; packet := message |} :: arrivals_of cbs'
  | _ :: cbs' => arrivals_of cbs'
  end.

(** ** Payloads as the listings show them *)

(** [s[:n]] *)
Fixpoint str_take (n : nat) (s : string) : string :=
  match n, s with
  | S n', String c s' => String c (str_take n' s')
  | _, _ => EmptyString
  end.

(** The truncation of [handle_list_uns_topics] and [handle_search_topics]:
    [if len(payload) > 100: payload = payload[:100] + "..."]. *)
Definition truncate_payload (payload : string) : string :=
  if (100 <? String.length payload)%nat then str_take 100 payload +:+ "..."
  else payload.

(** ** [handle_publish_message]

    The arguments dictionary holds text for ["topic"] and ["payload"] when
    they are given; a payload of another type, which the handler turns into
    text with [str], is not modelled.  The reply is the text of the single
    [TextContent]; the two replies built from the result record (the
    success block with its local time, and the failure line) are kept as
    the data they are rendered from. *)

Record publish_arguments := {
  arg_topic : option string;
  arg_payload : option string;
  arg_retain : option bool;
  arg_qos : option Z
}.

Inductive reply :=
  | ReplyText (text : string)
  | ReplyPublished (result : publish_result)
  | ReplyPublishFailed (error : string).

Definition handle_publish_message (w : world) (arguments : publish_arguments)
    (st : MQTTClientWrapper) : reply * MQTTClientWrapper :=
  let retain := default false (arg_retain arguments) in
  let qos := default 1 (arg_qos arguments) in
  match arg_topic arguments with
  | None => (ReplyText "Error: 'topic' parameter is required", st)
  | Some topic =>
      if negb (Py.truthy topic)
      then (ReplyText "Error: 'topic' parameter is required", st)
      else
        match arg_payload arguments with
        | None => (ReplyText "Error: 'payload' parameter is required", st)
        | Some payload =>
            match publish_message w topic payload retain qos st with
            | (Returned result, st) =>
                match result with
                | PublishSuccess _ _ _ _ _ _ => (ReplyPublished result, st)
                | PublishFailure _ error _ => (ReplyPublishFailed error, st)
                end
            | (Raised e, st) => (ReplyText (handle_publish_message_error e), st)
            end
        end
  end.

(** ** Patterns made of ordinary characters *)

(** A character that neither the wildcard translation nor the
    regular-expression reader treats specially. *)
Definition plain_char (c : ascii) : bool :=
  negb (Ascii.eqb c "#" || Ascii.eqb c "+" || Ascii.eqb c "*" || Ascii.eqb c "?"
        || Ascii.eqb c "[" || Ascii.eqb c "." || Re.is_special c).

Fixpoint plain (s : string) : bool :=
  match s with
  | EmptyString => true
  | String c s' => plain_char c && plain s'
  end.

(** The items that stand for the text [s] itself. *)
Fixpoint lits (s : string) : list Re.item :=
  match s with
  | EmptyString => []
  | String c s' => (Re.Lit c, Re.One) :: lits s'
  end.

(** The end of a subject as [$] sees it: nothing, or one final newline. *)
Definition line_end (v : string) : Prop :=
  v = "" \/ v = String Re.newline "".

(** More sample worlds. *)
Module Sample2.

Definition speed10 : MQTTMessage :=
  {| msg_topic := "line1/speed"; msg_payload := Utf8 "10";
     msg_qos := 0; msg_retain := true |}.

(** A broker with two retained topics, delivered during the first
    suspension. *)
Definition plant : world :=
  {| connect_raises := false; connack := Some 0; connect_wait := 0%N;
     subscribe_rc := fun _ => MQTT_ERR_SUCCESS;
     publish_info := fun _ _ _ _ => Sample.info_ok;
     arrivals := fun k =>
       match k with
       | O => [ {| at_time := 10; packet := speed10 |};
                {| at_time := 20; packet := Sample.temp72 |} ]
       | _ => []
       end;
     overshoot := fun _ => 5%N |}.

(** The broker refuses the session (CONNACK 135, not authorized). *)
Definition refusing : world :=
  {| connect_raises := false; connack := Some 135; connect_wait := 10000%N;
     subscribe_rc := fun _ => MQTT_ERR_NO_CONN;
     publish_info := fun _ _ _ _ => {| info_rc := MQTT_ERR_NO_CONN; info_mid := 1 |};
     arrivals := fun _ => []; overshoot := fun _ => 0%N |}.

Definition no_topic : publish_arguments :=
  {| arg_topic := Some ""; arg_payload := Some "x"; arg_retain := None; arg_qos := None |}.

End Sample2.

(** * Properties *)


(** ** Text *)

#[local] Arguments String.append !_ _ / : simpl nomatch.
#[local] Arguments Ascii.eqb : simpl never.

Section Text.

Implicit Types (s t u v : string) (c : ascii).

Lemma append_nil_r s : s +:+ "" = s.
Proof. induction s as [|c s IH]; simpl; [reflexivity | now rewrite IH]. Qed.

Lemma append_assoc s t u : (s +:+ t) +:+ u = s +:+ (t +:+ u).
Proof. induction s as [|c s IH]; simpl; [reflexivity | now rewrite IH]. Qed.






Lemma contains_char_app c s t :
  Py.contains_char c (s +:+ t) = Py.contains_char c s || Py.contains_char c t.
Proof.
  induction s as [|d s IH]; simpl; [reflexivity|].
  now rewrite IH, orb_assoc.
Qed.

End Text.

(** ** The matcher of the fragment *)

Section Matcher.

Import Re.

Implicit Types (a : atom) (r : list item) (k : string -> bool) (s : string).

Lemma one_ext a k1 k2 s :
  (forall x, k1 x = k2 x) -> one a k1 s = one a k2 s.
Proof. intros H. destruct s; simpl; [reflexivity | now rewrite H]. Qed.

Lemma star_ext a k1 k2 s :
  (forall x, k1 x = k2 x) -> star a k1 s = star a k2 s.
Proof.
  intros H. induction s as [|c s IH]; simpl; rewrite H; [reflexivity|].
  now rewrite IH.
Qed.

Lemma run_ext r k1 k2 s :
  (forall x, k1 x = k2 x) -> run r k1 s = run r k2 s.
Proof.
  revert s; induction r as [|[a q] r IH]; intros s H; simpl; [apply H|].
  destruct q.
  - apply one_ext. intros x. now apply IH.
  - rewrite (IH s H). f_equal. apply one_ext. intros x. now apply IH.
  - apply star_ext. intros x. now apply IH.
  - apply one_ext. intros x. apply star_ext. intros y. now apply IH.
Qed.

(** Matching a concatenation is matching the first part with the second
    as its continuation. *)
Lemma run_app r1 r2 k s : run (r1 ++ r2) k s = run r1 (run r2 k) s.
Proof.
  revert s; induction r1 as [|[a q] r1 IH]; intros s; simpl; [reflexivity|].
  destruct q.
  - apply one_ext, IH.
  - rewrite IH. f_equal. apply one_ext, IH.
  - apply star_ext, IH.
  - apply one_ext. intros x. apply star_ext, IH.
Qed.

Lemma star_split a k s :
  star a k s = true <->
  exists u v, s = u +:+ v /\ all_accept a u = true /\ k v = true.
Proof.
  induction s as [|c s IH]; simpl.
  - rewrite orb_false_r. split.
    + intros H. now exists "", "".
    + intros (u & v & Hs & _ & Hk). destruct u; [|discriminate].
      simpl in Hs. now subst v.
  - rewrite orb_true_iff, andb_true_iff, IH. split.
    + intros [H | [Hc (u & v & -> & Hu & Hk)]].
      * now exists "", (String c s).
      * exists (String c u), v. simpl. now rewrite Hc, Hu.
    + intros (u & v & Hs & Hu & Hk). destruct u as [|d u]; simpl in *.
      * left. now subst v.
      * right. injection Hs as -> ->. apply andb_true_iff in Hu as [Hd Hu].
        split; [assumption | now exists u, v].
Qed.

Lemma one_split a k s :
  one a k s = true <->
  exists c v, s = String c v /\ accepts a c = true /\ k v = true.
Proof.
  destruct s as [|c s]; simpl.
  - split; [discriminate | intros (c & v & H & _); discriminate].
  - rewrite andb_true_iff. split.
    + intros [Hc Hk]. now exists c, s.
    + intros (d & v & H & Hd & Hk). now injection H as -> ->.
Qed.

(** The continuation only sees what the items leave over. *)
Lemma run_split r k s :
  run r k s = true <->
  exists u v, s = u +:+ v /\ run r at_end u = true /\ k v = true.
Proof.
  revert k s; induction r as [|[a q] r IH]; intros k s.
  - simpl. split.
    + intros H. now exists "", s.
    + intros (u & v & -> & Hu & Hk). destruct u; [assumption | discriminate].
  - assert (Hone : forall k s, one a (run r k) s = true <->
              exists u v, s = u +:+ v /\ one a (run r at_end) u = true /\ k v = true).
    { intros k0 s0. rewrite one_split. split.
      - intros (c & x & -> & Hc & Hx). apply IH in Hx as (u & v & -> & Hu & Hk).
        exists (String c u), v. simpl. now rewrite Hc, Hu.
      - intros (u & v & -> & Hu & Hk). apply one_split in Hu as (c & x & -> & Hc & Hx).
        exists c, (x +:+ v). repeat split; [assumption|]. apply IH. now exists x, v. }
    assert (Hstar : forall k s, star a (run r k) s = true <->
              exists u v, s = u +:+ v /\ star a (run r at_end) u = true /\ k v = true).
    { intros k0 s0. rewrite star_split. split.
      - intros (x & y & -> & Hx & Hy). apply IH in Hy as (u & v & -> & Hu & Hk).
        exists (x +:+ u), v. rewrite append_assoc. repeat split; [|assumption].
        apply star_split. now exists x, u.
      - intros (u & v & -> & Hu & Hk). apply star_split in Hu as (x & y & -> & Hx & Hy).
        exists x, (y +:+ v). rewrite append_assoc. repeat split; [assumption|].
        apply IH. now exists y, v. }
    destruct q; simpl.
    + apply Hone.
    + rewrite orb_true_iff, Hone, IH. split.
      * intros [(u & v & -> & Hu & Hk) | (u & v & -> & Hu & Hk)];
          exists u, v; rewrite Hu, ?orb_true_r; auto.
      * intros (u & v & -> & Hu & Hk). apply orb_true_iff in Hu as [Hu | Hu];
          [left | right]; now exists u, v.
    + apply Hstar.
    + rewrite one_split. split.
      * intros (c & x & -> & Hc & Hx). apply Hstar in Hx as (u & v & -> & Hu & Hk).
        exists (String c u), v. simpl. now rewrite Hc, Hu.
      * intros (u & v & -> & Hu & Hk). apply one_split in Hu as (c & x & -> & Hc & Hx).
        exists c, (x +:+ v). repeat split; [assumption|]. apply Hstar. now exists x, v.
Qed.

Lemma all_accept_any s : all_accept Any s = true.
Proof. induction s; simpl; auto. Qed.

(** A leading [*] of a glob skips any prefix of the name. *)
Lemma star_any_split k s :
  star Any k s = true <-> exists u v, s = u +:+ v /\ k v = true.
Proof.
  rewrite star_split. split.
  - intros (u & v & H & _ & Hk). now exists u, v.
  - intros (u & v & H & Hk). exists u, v. now rewrite all_accept_any.
Qed.

Lemma translate_app p q r1 r2 :
  Fnmatch.translate p = Some r1 -> Fnmatch.translate q = Some r2 ->
  Fnmatch.translate (p +:+ q) = Some (r1 ++ r2)%list.
Proof.
  revert r1; induction p as [|c p IH]; intros r1 H1 H2; simpl in *.
  - now injection H1 as <-.
  - destruct (Ascii.eqb c "["); [discriminate|].
    destruct (Fnmatch.translate p) as [r|]; [|discriminate].
    injection H1 as <-. now rewrite (IH r eq_refl H2).
Qed.

Lemma translate_total p :
  Py.contains_char "[" p = false -> is_Some (Fnmatch.translate p).
Proof.
  induction p as [|c p IH]; simpl; [eauto|].
  rewrite Ascii.eqb_sym. intros H. apply orb_false_iff in H as [-> H].
  destruct (IH H) as [r ->]. eauto.
Qed.

(** Wrapping a glob in [*] on both sides searches the name for a part
    that the glob matches. *)
Lemma fnmatch_wrapped name p :
  Py.contains_char "[" p = false ->
  is_Some (Fnmatch.fnmatch name ("*" +:+ p +:+ "*")) /\
  (Fnmatch.fnmatch name ("*" +:+ p +:+ "*") = Some true <->
   exists u b v, name = u +:+ b +:+ v /\ Fnmatch.fnmatch b p = Some true).
Proof.
  intros Hp. destruct (translate_total p Hp) as [r Hr].
  assert (Hw : Fnmatch.translate ("*" +:+ p +:+ "*") = Some ([(Any, Star)] ++ r ++ [(Any, Star)])%list).
  { apply (translate_app "*" (p +:+ "*")); [reflexivity|].
    apply translate_app; [assumption | reflexivity]. }
  unfold Fnmatch.fnmatch. rewrite Hw, Hr. split; [eauto|].
  simpl. split.
  - intros H. injection H as H. apply star_any_split in H as (u & x & -> & H).
    rewrite run_app in H. apply run_split in H as (b & v & -> & Hb & _).
    exists u, b, v. now rewrite Hb.
  - intros (u & b & v & -> & H). injection H as H. f_equal.
    apply star_any_split. exists u, (b +:+ v). split; [reflexivity|].
    rewrite run_app. apply run_split. exists b, v. repeat split; [assumption|].
    simpl. apply star_any_split. exists v, "". now rewrite append_nil_r.
Qed.

End Matcher.

(** ** The pattern matcher *)

Section PatternMatcher.

Lemma replace_char_app old new s t :
  Py.replace_char old new (s +:+ t) =
  Py.replace_char old new s +:+ Py.replace_char old new t.
Proof.
  induction s as [|c s IH]; simpl; [reflexivity|].
  destruct (Ascii.eqb c old); rewrite IH; [now rewrite append_assoc | reflexivity].
Qed.

(** The translation works character by character. *)
Lemma mqtt_pattern_cons c p :
  mqtt_pattern (String c p) =
  (if Ascii.eqb c "+" then "[^/]+"
   else if Ascii.eqb c "#" then ".*"
   else String c "") +:+ mqtt_pattern p.
Proof.
  unfold mqtt_pattern.
  assert (E : Py.replace_char "+" "[^/]+" (String c p) =
              (if Ascii.eqb c "+" then "[^/]+" else String c "") +:+
              Py.replace_char "+" "[^/]+" p).
  { simpl. destruct (Ascii.eqb c "+"); reflexivity. }
  rewrite E, replace_char_app. f_equal.
  destruct (Ascii.eqb c "+"); [reflexivity|].
  simpl. destruct (Ascii.eqb c "#"); reflexivity.
Qed.


End PatternMatcher.

Example topic_matches_scenario_C1 : topic_matches "*speed*" "line1/speed" = Some true.
Proof. reflexivity. Qed.
Example topic_matches_scenario_C2 : topic_matches "*speed*" "line1/temp" = Some false.
Proof. reflexivity. Qed.
Example topic_matches_plus :
  topic_matches "flexpack/+/line1/#" "flexpack/packaging/line1/filler/speed" = Some true.
Proof. reflexivity. Qed.
Example topic_matches_plus_one_level :
  topic_matches "a/+/c" "a/b/c" = Some true /\ topic_matches "a/+/c" "a/b/x/c" = Some false.
Proof. split; reflexivity. Qed.
Example topic_matches_keyword : topic_matches "TEMP" "line1/temp" = Some true.
Proof. reflexivity. Qed.
Example topic_matches_trailing_newline :
  topic_matches "a/#" ("a/b" +:+ String Re.newline "") = Some true.
Proof. reflexivity. Qed.
Example str_of_Z_examples :
  Py.str_of_Z 5 = "5" /\ Py.str_of_Z 0 = "0" /\ Py.str_of_Z (-3) = "-3".
Proof. repeat split; reflexivity. Qed.
Example strip_examples : Py.strip "  a b  " = "a b" /\ Py.strip "   " = "".
Proof. split; reflexivity. Qed.
Example filter_spec_examples :
  FilterSpec.filter_matches "a/#" "a/b/c" = true /\
  FilterSpec.filter_matches "a/+" "a/b/c" = false /\
  FilterSpec.filter_matches "a/+/c" "a/b/c" = true.
Proof. repeat split; reflexivity. Qed.

(** C2: in the broker-wildcard tier the pattern ["a/#"] matches the topics
    ["a/b"] and ["a/b/c"], but the matcher rejects the parent topic ["a"],
    which the level-by-level reading of the filter accepts (zero trailing
    levels). *)
Theorem C2_parent_topic_rejected :
  classify "a/#" = BrokerWildcard /\
  topic_matches "a/#" "a/b" = Some true /\
  topic_matches "a/#" "a/b/c" = Some true /\
  topic_matches "a/#" "a" = Some false /\
  FilterSpec.filter_matches "a/#" "a" = true.
Proof. repeat split; reflexivity. Qed.



(** C9: the broker-wildcard tier rewrites [+] and [#] only and passes
    every other character of the pattern to the regular-expression engine
    as it is, so the [.] of ["a.b/#"] stands for any character: the topic
    ["axb/c"] is reported as a match, although the filter read level by
    level does not cover it. *)
Theorem C9_metacharacters_not_escaped :
  (forall c p,
     mqtt_pattern (String c p) =
     (if Ascii.eqb c "+" then "[^/]+"
      else if Ascii.eqb c "#" then ".*"
      else String c "") +:+ mqtt_pattern p) /\
  Re.compile ("^" +:+ mqtt_pattern "a.b/#" +:+ "$") =
    Some [(Re.Lit "a", Re.One); (Re.Dot, Re.One); (Re.Lit "b", Re.One);
          (Re.Lit "/", Re.One); (Re.Dot, Re.Star)] /\
  classify "a.b/#" = BrokerWildcard /\
  topic_matches "a.b/#" "axb/c" = Some true /\
  FilterSpec.filter_matches "a.b/#" "axb/c" = false.
Proof.
  split; [exact mqtt_pattern_cons|]. repeat split; reflexivity.
Qed.

(** ** The wrapper: connection, cache, discovery, publishing *)

Section Wrapper.

Implicit Types (w : world) (st : MQTTClientWrapper) (m : gmap string snapshot).

Lemma ensure_connected_online w st :
  connected st = true -> ensure_connected w st = (true, st).
Proof. unfold ensure_connected. now intros ->. Qed.

(** Connecting leaves the cache, the suspension count alone. *)
Lemma ensure_connected_frame w st :
  messages (snd (ensure_connected w st)) = messages st /\
  tick (snd (ensure_connected w st)) = tick st.
Proof.
  unfold ensure_connected, connect, _on_connect.
  destruct (connected st); simpl; [auto with arith|].
  destruct (connect_raises w); simpl; [auto|].
  destruct (connack w) as [rc|]; simpl; [|auto with arith].
  destruct ((rc =? 0) || negb (is_failure rc)); simpl; auto with arith.
Qed.

(** Connecting calls [connect] and [loop_start] on the client, nothing else. *)
Lemma ensure_connected_calls w st c :
  c ∈ calls (snd (ensure_connected w st)) ->
  c ∈ calls st \/ c = CallConnect \/ c = CallLoopStart.
Proof.
  unfold ensure_connected, connect, _on_connect.
  destruct (connected st); simpl; [auto|].
  destruct (connect_raises w); simpl.
  - rewrite elem_of_app, list_elem_of_singleton. tauto.
  - destruct (connack w) as [rc|]; simpl;
      [destruct ((rc =? 0) || negb (is_failure rc)); simpl|];
      rewrite !elem_of_app, !list_elem_of_singleton; tauto.
Qed.

(** When it answers [True] the wrapper is connected. *)
Lemma ensure_connected_true w st st1 :
  ensure_connected w st = (true, st1) -> connected st1 = true.
Proof.
  unfold ensure_connected, connect.
  destruct (connected st) eqn:Hc; simpl; [now intros [= <-]|].
  destruct (connect_raises w); [discriminate|].
  intros H. injection H as H1 H2. subst st1. exact H1.
Qed.

Lemma strip_empty topic : Py.truthy topic = false -> Py.strip topic = "".
Proof. destruct topic; [reflexivity | discriminate]. Qed.

Lemma truthy_false s : Py.truthy s = false <-> s = "".
Proof. destruct s; simpl; split; congruence. Qed.

End Wrapper.

(** C7: the cache is keyed by topic path, so it never lists a topic twice,
    and a receipt puts a snapshot made from the new message alone in the
    place of whatever entry the topic had; other topics keep theirs. *)
Theorem C7_cache_last_write_wins (time : Z) (message : MQTTMessage)
    (st : MQTTClientWrapper) :
  let st' := _on_message time message st in
  messages st' !! msg_topic message = Some (snapshot_of time message) /\
  (forall t, t <> msg_topic message -> messages st' !! t = messages st !! t) /\
  NoDup (map_to_list (messages st)).*1 /\
  NoDup (map_to_list (messages st')).*1 /\
  size (messages st') =
    (if bool_decide (is_Some (messages st !! msg_topic message))
     then size (messages st) else S (size (messages st))).
Proof.
  simpl. split; [apply lookup_insert_eq|].
  split; [intros t Ht; now apply lookup_insert_ne|].
  split; [apply NoDup_fst_map_to_list|].
  split; [apply NoDup_fst_map_to_list|].
  rewrite map_size_insert. case_bool_decide as H.
  - destruct H as [x ->]. reflexivity.
  - destruct (messages st !! msg_topic message) eqn:E; [|reflexivity].
    exfalso. apply H. eauto.
Qed.

(** A second value for a cached topic: one entry before, one entry after. *)
Lemma C7_cache_last_write_wins_witness :
  messages (_on_message 140 Sample.temp73 Sample.online_cached) !! "sensors/room1/temp"
    = Some (snapshot_of 140 Sample.temp73) /\
  size (messages (_on_message 140 Sample.temp73 Sample.online_cached)) = 1%nat.
Proof.
  destruct (C7_cache_last_write_wins 140 Sample.temp73 Sample.online_cached)
    as (H1 & _ & _ & _ & H2).
  split; [exact H1|]. rewrite H2. reflexivity.
Defined.

(** C10: when the subscribe step of [discover_topics] fails, the error
    leaves the cache empty: whatever was cached before the call is gone. *)
Theorem C10_cache_cleared_on_subscribe_failure (w : world) (base_path : string)
    (timeout : Z) (st st1 : MQTTClientWrapper) :
  ensure_connected w st = (true, st1) ->
  subscribe_rc w base_path <> MQTT_ERR_SUCCESS ->
  exists e st',
    discover_topics w base_path timeout st = (Raised e, st') /\
    messages st' = ∅.
Proof.
  intros Hc Hrc. unfold discover_topics, discover_enter. rewrite Hc. simpl.
  apply Z.eqb_neq in Hrc. rewrite Hrc. simpl. eauto.
Qed.

Lemma C10_cache_cleared_on_subscribe_failure_witness :
  messages Sample.online_cached <> ∅ /\
  exists e st',
    discover_topics Sample.dropped "#" 3000 Sample.online_cached = (Raised e, st') /\
    messages st' = ∅.
Proof.
  split.
  - intros H. apply (f_equal (fun m => m !! "sensors/room1/temp")) in H.
    vm_compute in H. discriminate.
  - apply (C10_cache_cleared_on_subscribe_failure Sample.dropped "#" 3000
             Sample.online_cached Sample.online_cached).
    + reflexivity.
    + discriminate.
Defined.

(** C3 as stated fails: a refused subscription raises a plain [Exception],
    which is not a [ConnectionError]. *)
Lemma C3_subscribe_failure_is_not_connection_error :
  fst (discover_topics Sample.dropped "#" 3000 Sample.online)
    = Raised (Exception_ "Failed to subscribe to #") /\
  is_connection_error (Exception_ "Failed to subscribe to #") = false /\
  handle_list_uns_topics_error (Exception_ "Failed to subscribe to #")
    = "Error discovering topics: Failed to subscribe to #".
Proof. repeat split; reflexivity. Qed.

(** C3, amended: when the subscribe step of [discover_topics] fails, the
    call raises the plain exception "Failed to subscribe to <pattern>",
    not a [ConnectionError], and it does so before any waiting: no
    suspension, no time spent, no call on the client after [subscribe]. *)
Theorem C3_subscribe_failure_raises_before_waiting (w : world) (base_path : string)
    (timeout : Z) (st st1 : MQTTClientWrapper) :
  ensure_connected w st = (true, st1) ->
  subscribe_rc w base_path <> MQTT_ERR_SUCCESS ->
  exists st',
    discover_topics w base_path timeout st =
      (Raised (Exception_ ("Failed to subscribe to " +:+ base_path)), st') /\
    is_connection_error (Exception_ ("Failed to subscribe to " +:+ base_path)) = false /\
    tick st' = tick st1 /\ now st' = now st1 /\
    calls st' = (calls st1 ++ [CallSubscribe base_path 1])%list.
Proof.
  intros Hc Hrc. unfold discover_topics, discover_enter. rewrite Hc. simpl.
  apply Z.eqb_neq in Hrc. rewrite Hrc. simpl. eexists. split; [reflexivity|].
  simpl. auto.
Qed.

Lemma C3_subscribe_failure_raises_before_waiting_witness :
  exists st',
    discover_topics Sample.dropped "#" 3000 Sample.online =
      (Raised (Exception_ ("Failed to subscribe to " +:+ "#")), st') /\
    is_connection_error (Exception_ ("Failed to subscribe to " +:+ "#")) = false /\
    tick st' = tick Sample.online /\ now st' = now Sample.online /\
    calls st' = (calls Sample.online ++ [CallSubscribe "#" 1])%list.
Proof.
  apply (C3_subscribe_failure_raises_before_waiting Sample.dropped "#" 3000
           Sample.online Sample.online).
  - reflexivity.
  - discriminate.
Defined.

(** C1 as stated fails: on a disconnected wrapper the publish to
    ["sensors/#"] first calls [connect] on the client, and as the broker is
    not there the call ends in a connection error, not a validation error. *)
Lemma C1_connection_attempt_precedes_validation :
  fst (publish_message Sample.unreachable "sensors/#" "x" false 1 Sample.offline)
    = Raised (ConnectionError "Not connected to MQTT broker") /\
  is_value_error (ConnectionError "Not connected to MQTT broker") = false /\
  handle_publish_message_error (ConnectionError "Not connected to MQTT broker")
    = "Connection error: Not connected to MQTT broker" /\
  calls Sample.offline = [] /\
  calls (snd (publish_message Sample.unreachable "sensors/#" "x" false 1 Sample.offline))
    = [CallConnect].
Proof. repeat split; reflexivity. Qed.

(** C1, amended: a publish whose QoS is not 0, 1 or 2, whose topic is
    empty after trimming, or whose topic contains [+] or [#] ends in an
    error right after the connection check: the wrapper is left as
    [ensure_connected] left it, so [client.publish] is never called and the
    only calls on the client are those of a connection attempt (none when
    the wrapper was connected).  The error is a validation error when the
    connection check succeeds and a connection error otherwise. *)
Theorem C1_validation_before_publish (w : world) (topic payload : string)
    (retain : bool) (qos : Z) (st : MQTTClientWrapper) :
  qos ∉ [0; 1; 2] \/ Py.strip topic = "" \/
    Py.contains_char "+" topic = true \/ Py.contains_char "#" topic = true ->
  exists e,
    publish_message w topic payload retain qos st = (Raised e, snd (ensure_connected w st)) /\
    (fst (ensure_connected w st) = true -> is_value_error e = true) /\
    (fst (ensure_connected w st) = false -> is_connection_error e = true) /\
    (connected st = true -> snd (ensure_connected w st) = st) /\
    (forall c, c ∈ calls (snd (ensure_connected w st)) ->
               c ∈ calls st \/ c = CallConnect \/ c = CallLoopStart).
Proof.
  intros Hbad. unfold publish_message.
  assert (Hframe : (connected st = true -> snd (ensure_connected w st) = st) /\
                   (forall c, c ∈ calls (snd (ensure_connected w st)) ->
                      c ∈ calls st \/ c = CallConnect \/ c = CallLoopStart)).
  { split; [intros H; now rewrite ensure_connected_online | apply ensure_connected_calls]. }
  destruct (ensure_connected w st) as [ok st1]. simpl in *.
  destruct Hframe as [Hsame Hcalls].
  assert (Hdone : forall e : exn,
            (true = ok -> is_value_error e = true) ->
            (false = ok -> is_connection_error e = true) ->
            exists e0, (Raised e, st1) = (@Raised publish_result e0, st1) /\
              (ok = true -> is_value_error e0 = true) /\
              (ok = false -> is_connection_error e0 = true) /\
              (connected st = true -> st1 = st) /\
              (forall c, c ∈ calls st1 -> c ∈ calls st \/ c = CallConnect \/ c = CallLoopStart)).
  { intros e Hv Hc. exists e. repeat split; auto. }
  destruct ok; simpl; [|apply Hdone; [discriminate | reflexivity]].
  case_bool_decide as Hq; simpl; [|apply Hdone; [reflexivity | discriminate]].
  destruct (Py.truthy topic) eqn:Ht; simpl;
    [|apply Hdone; [reflexivity | discriminate]].
  destruct (Py.truthy (Py.strip topic)) eqn:Hs; simpl;
    [|apply Hdone; [reflexivity | discriminate]].
  destruct Hbad as [Hbad | [Hbad | [Hbad | Hbad]]].
  - contradiction.
  - rewrite Hbad in Hs. discriminate.
  - rewrite Hbad, orb_true_r. apply Hdone; [reflexivity | discriminate].
  - rewrite Hbad. apply Hdone; [reflexivity | discriminate].
Qed.

(** Scenario D on a connected wrapper: a validation error and no call on
    the client at all. *)
Lemma C1_validation_before_publish_witness :
  exists e,
    publish_message Sample.quiet "sensors/#" "x" false 1 Sample.online = (Raised e, Sample.online) /\
    is_value_error e = true.
Proof.
  destruct (C1_validation_before_publish Sample.quiet "sensors/#" "x" false 1 Sample.online)
    as (e & H1 & H2 & _).
  - right. right. right. reflexivity.
  - exists e. split; [exact H1 | apply H2; reflexivity].
Defined.

(** C6: with QoS 1 and a broker result other than success,
    [wait_for_publish] raises before the result code is looked at, so the
    call ends in an exception instead of the failure record; with QoS 0 the
    same result code gives the failure record.  Whenever the call does
    return, its result has the documented shape: message identifier and
    timestamp on success, error text and error code on failure. *)
Theorem C6_publish_failure_raises_with_qos1 :
  fst (publish_message Sample.dropped "a/b" "v" false 1 Sample.online)
    = Raised (RuntimeError "Message publish failed") /\
  fst (publish_message Sample.dropped "a/b" "v" false 0 Sample.online)
    = Returned (PublishFailure "a/b" "Publish failed with error code: 4" 4) /\
  fst (publish_message Sample.quiet "a/b" "v" false 1 Sample.online)
    = Returned (PublishSuccess "a/b" "v" false 1 1 0) /\
  (forall w topic payload retain qos st r st',
     publish_message w topic payload retain qos st = (Returned r, st') ->
     let info := publish_info w topic payload qos retain in
     r = if info_rc info =? MQTT_ERR_SUCCESS
         then PublishSuccess topic payload retain qos (info_mid info) (now st')
         else PublishFailure topic
                ("Publish failed with error code: " +:+ Py.str_of_Z (info_rc info))
                (info_rc info)).
Proof.
  split; [reflexivity|]. split; [reflexivity|]. split; [reflexivity|].
  intros w topic payload retain qos st r st'. unfold publish_message.
  destruct (ensure_connected w st) as [ok st1].
  destruct ok; simpl; [|discriminate].
  case_bool_decide; simpl; [|discriminate].
  destruct (negb (Py.truthy topic) || negb (Py.truthy (Py.strip topic))); [discriminate|].
  destruct (Py.contains_char "#" topic || Py.contains_char "+" topic); [discriminate|].
  destruct (0 <? qos).
  - destruct (wait_for_publish _); [discriminate|].
    destruct (info_rc _ =? MQTT_ERR_SUCCESS); intros [= <- <-]; reflexivity.
  - destruct (info_rc _ =? MQTT_ERR_SUCCESS); intros [= <- <-]; reflexivity.
Qed.

(** ** Reading one topic *)

Section SingleTopicRead.

Implicit Types (w : world) (st : MQTTClientWrapper) (m : gmap string snapshot)
  (l : list arrival).

Lemma window_empty w a : window w a a = [].
Proof. unfold window. now rewrite Nat.sub_diag. Qed.

Lemma window_first w a b :
  (a < b)%nat -> window w a b = (arrivals w a ++ window w (S a) b)%list.
Proof.
  intros H. unfold window.
  replace (b - a)%nat with (S (b - S a)) by lia. reflexivity.
Qed.

Lemma cache_after_app m l1 l2 :
  cache_after m (l1 ++ l2) = cache_after (cache_after m l1) l2.
Proof. apply foldl_app. Qed.

Lemma messages_deliver_all st l :
  messages (foldl deliver st l) = cache_after (messages st) l.
Proof.
  revert st; induction l as [|a l IH]; intros st; simpl; [reflexivity|].
  now rewrite IH.
Qed.

Lemma suspend_messages w d st :
  messages (suspend w d st) = cache_after (messages st) (arrivals w (tick st)).
Proof. unfold suspend. simpl. apply messages_deliver_all. Qed.

Lemma tick_deliver_all st l : tick (foldl deliver st l) = tick st.
Proof. revert st; induction l as [|a l IH]; intros st; simpl; [reflexivity | now rewrite IH]. Qed.

Lemma now_deliver_all st l : now (foldl deliver st l) = now st.
Proof. revert st; induction l as [|a l IH]; intros st; simpl; [reflexivity | now rewrite IH]. Qed.

Lemma calls_deliver_all st l : calls (foldl deliver st l) = calls st.
Proof. revert st; induction l as [|a l IH]; intros st; simpl; [reflexivity | now rewrite IH]. Qed.

Lemma suspend_tick w d st : tick (suspend w d st) = S (tick st).
Proof. unfold suspend. simpl. rewrite tick_deliver_all. lia. Qed.

(** A suspension lasts at least as long as asked. *)
Lemma suspend_now w d st : now st + d <= now (suspend w d st).
Proof. unfold suspend. simpl. rewrite now_deliver_all. lia. Qed.

Lemma suspend_calls w d st : calls (suspend w d st) = calls st.
Proof. unfold suspend. simpl. apply calls_deliver_all. Qed.

(** In the cache, the last arrival on a topic wins; a topic on which
    nothing arrived keeps its entry. *)
Lemma lookup_cache_after m l t :
  cache_after m l !! t =
  match latest t l with
  | Some s => Some s
  | None => m !! t
  end.
Proof.
  revert m; induction l as [|a l IH]; intros m; [reflexivity|].
  change (cache_after m (a :: l))
    with (cache_after (<[msg_topic (packet a) := snapshot_of (at_time a) (packet a)]> m) l).
  rewrite IH. simpl. destruct (latest t l); [reflexivity|].
  destruct (String.eqb_spec (msg_topic (packet a)) t) as [->|Hne].
  - apply lookup_insert_eq.
  - now apply lookup_insert_ne.
Qed.

Lemma latest_none t l :
  latest t l = None <-> Forall (fun a => msg_topic (packet a) <> t) l.
Proof.
  induction l as [|a l IH]; simpl.
  - split; [constructor | reflexivity].
  - rewrite Forall_cons. destruct (latest t l).
    + split; [discriminate | intros [_ H]; now apply IH in H].
    + destruct (String.eqb_spec (msg_topic (packet a)) t) as [->|Hne].
      * split; [discriminate | intros [H _]; contradiction].
      * split; [intros _; split; [assumption | now apply IH] | reflexivity].
Qed.


(** With enough fuel the loop ends on one of its two exits; it has then
    seen every arrival of the suspensions it went through, and it has found
    the topic or used up the timeout. *)
Lemma poll_spec w topic start timeout fuel st :
  (1 <= fuel)%nat ->
  start + timeout - now st <= 100 * (Z.of_nat fuel - 1) ->
  exists st',
    poll w fuel topic start timeout st = Some st' /\
    (tick st <= tick st')%nat /\
    messages st' = cache_after (messages st) (window w (tick st) (tick st')) /\
    calls st' = calls st /\
    now st <= now st' /\
    (messages st' !! topic = None -> timeout <= now st' - start).
Proof.
  revert st; induction fuel as [|fuel IH]; intros st Hf Hrem; [lia|].
  simpl. destruct (now st - start <? timeout) eqn:Hlt.
  - case_bool_decide as Hin.
    + exists st. rewrite window_empty. repeat split; auto with zarith.
      intros Hnone. rewrite Hnone in Hin. now destruct Hin.
    + apply Z.ltb_lt in Hlt.
      pose proof (suspend_now w 100 st) as Hnow.
      destruct (IH (suspend w 100 st)) as (st' & Hp & Ht & Hm & Hc & Hn & Hto); [lia | lia |].
      rewrite suspend_tick in Ht, Hm. rewrite suspend_messages in Hm.
      rewrite suspend_calls in Hc.
      exists st'. split; [assumption|]. split; [lia|]. split.
      { rewrite (window_first w (tick st) (tick st')) by lia.
        now rewrite cache_after_app. }
      split; [assumption|]. split; [lia | assumption].
  - apply Z.ltb_ge in Hlt. exists st. rewrite window_empty.
    repeat split; auto with zarith.
Qed.

Lemma poll_fuel_enough timeout :
  (1 <= poll_fuel timeout)%nat /\
  timeout <= 100 * (Z.of_nat (poll_fuel timeout) - 1).
Proof.
  unfold poll_fuel. split; [lia|].
  destruct (Z.le_gt_cases 0 timeout) as [Hpos | Hneg].
  - assert (0 <= timeout / 100) by (apply Z.div_pos; lia).
    pose proof (Z.mod_pos_bound timeout 100 ltac:(lia)).
    pose proof (Z.div_mod timeout 100 ltac:(lia)). lia.
  - lia.
Qed.

End SingleTopicRead.

Example get_topic_value_scenario_A :
  get_topic_value Sample.room1 (poll_fuel 2000) "sensors/room1/temp" 2000 Sample.online
  = Some (Returned (Some (snapshot_of 40 Sample.temp72)),
          {| connected := true;
             messages := {[ "sensors/room1/temp" := snapshot_of 40 Sample.temp72 ]};
             _message_event := true; _reconnect_count := 0; now := 100; tick := 1;
             calls := [CallSubscribe "sensors/room1/temp" 1;
                       CallUnsubscribe "sensors/room1/temp"] |}).
Proof. vm_compute. reflexivity. Qed.

Example get_topic_value_nothing :
  fst <$> get_topic_value Sample.quiet (poll_fuel 500) "sensors/room1/temp" 500 Sample.online_cached
  = Some (Returned None).
Proof. vm_compute. reflexivity. Qed.



(** ** Serialised discovery sweeps *)

Section Serialisation.

Import Sched.

Implicit Types (w : world) (s : system) (ts : list pc) (i j : nat).

Lemma dwelling_insert_other ts i j x p :
  (forall q, x <> Dwelling q) ->
  <[i := x]> ts !! j = Some (Dwelling p) ->
  j <> i /\ ts !! j = Some (Dwelling p).
Proof.
  intros Hx H. apply list_lookup_insert_Some in H as [(-> & -> & _) | [Hne H]].
  - now destruct (Hx p).
  - auto.
Qed.

Lemma dwelling_insert_dwelling ts i j p q :
  <[i := Dwelling q]> ts !! j = Some (Dwelling p) ->
  j = i \/ ts !! j = Some (Dwelling p).
Proof.
  intros H. apply list_lookup_insert_Some in H as [(-> & _ & _) | [_ H]]; auto.
Qed.

Lemma init_not_dwelling st requests i : ~ dwelling (init st requests) i.
Proof.
  intros [p H]. unfold init in H. simpl in H.
  revert i H; induction requests as [|r requests IH]; intros [|i] H;
    simpl in H; try discriminate. eauto.
Qed.

Lemma exclusive_init st requests : exclusive (init st requests).
Proof.
  split; [split|].
  - discriminate.
  - intros [i H]. now apply init_not_dwelling in H.
  - intros i j H. now apply init_not_dwelling in H.
Qed.

(** Setting a task that is not in its dwell to a state that is not a dwell
    changes neither who dwells nor the lock. *)
Lemma exclusive_move s st' i x old :
  exclusive s ->
  tasks s !! i = Some old -> (forall q, old <> Dwelling q) -> (forall q, x <> Dwelling q) ->
  exclusive {| self := st'; locked := locked s; tasks := <[i := x]> (tasks s) |}.
Proof.
  intros [Hl Hu] Hi Hold Hx.
  assert (Hsame : forall j, dwelling {| self := st'; locked := locked s;
                                        tasks := <[i := x]> (tasks s) |} j <-> dwelling s j).
  { intros j. unfold dwelling. simpl. split; intros [p H].
    - apply dwelling_insert_other in H as [_ H]; eauto.
    - exists p. rewrite list_lookup_insert_ne; [assumption|].
      intros ->. rewrite Hi in H. injection H as ->. now destruct (Hold p). }
  split; simpl.
  - rewrite Hl. split; intros [j H]; exists j; now apply Hsame.
  - intros j k Hj Hk. apply Hsame in Hj, Hk. now apply Hu.
Qed.

Lemma exclusive_enter w s st' i p old :
  exclusive s -> locked s = false ->
  tasks s !! i = Some old ->
  exclusive (enter w i p st' (tasks s)).
Proof.
  intros [Hl Hu] Hfree Hi.
  assert (Hnone : forall j, ~ dwelling s j).
  { intros j Hj. destruct Hl as [_ Hl]. rewrite Hl in Hfree by eauto. discriminate. }
  unfold enter. destruct (discover_enter w p st') as [[e|] st''].
  - assert (Hno : forall j, ~ dwelling {| self := st''; locked := false;
                     tasks := <[i := Finished (Raised e)]> (tasks s) |} j).
    { intros j [q H]. simpl in H. apply dwelling_insert_other in H as [_ H]; [|discriminate].
      apply (Hnone j). now exists q. }
    split; simpl.
    + split; [discriminate | intros [j H]; now apply Hno in H].
    + intros j k H. now apply Hno in H.
  - assert (Honly : forall j, dwelling {| self := st''; locked := true;
                       tasks := <[i := Dwelling p]> (tasks s) |} j -> j = i).
    { intros j [q H]. simpl in H. apply dwelling_insert_dwelling in H as [H | H]; [assumption|].
      destruct (Hnone j). now exists q. }
    split; simpl.
    + split; [|reflexivity]. intros _. exists i, p. simpl.
      apply list_lookup_insert_eq. now apply lookup_lt_Some in Hi.
    + intros j k Hj Hk. apply Honly in Hj, Hk. congruence.
Qed.

Lemma exclusive_step w s s' : exclusive s -> step w s s' -> exclusive s'.
Proof.
  intros Hex Hstep. destruct Hstep as
    [s i p t st' Hi He | s i p t st' Hi He Hl | s i p t st' Hi He Hl
    | s i p t Hi Hl | s i p Hi | s a].
  - apply (exclusive_move s st' i _ _ Hex Hi); discriminate.
  - rewrite <- Hl. apply (exclusive_move s st' i _ _ Hex Hi); discriminate.
  - now apply (exclusive_enter w s st' i p _ Hex Hl Hi).
  - now apply (exclusive_enter w s (self s) i p _ Hex Hl Hi).
  - destruct Hex as [Hl Hu].
    assert (Hno : forall j, ~ dwelling {| self := (discover_exit p (self s)).2; locked := false;
                     tasks := <[i := Finished (Returned (discover_exit p (self s)).1)]> (tasks s) |} j).
    { intros j [q H]. simpl in H. apply dwelling_insert_other in H as [Hne H]; [|discriminate].
      apply Hne. apply Hu; [now exists q | now exists p]. }
    split; simpl.
    + split; [discriminate | intros [j H]; now apply Hno in H].
    + intros j k H. now apply Hno in H.
  - destruct Hex as [Hl Hu]. split; [exact Hl | exact Hu].
Qed.

Lemma exclusive_reachable w st requests s :
  rtc (step w) (init st requests) s -> exclusive s.
Proof.
  apply (rtc_ind_r (fun s => exclusive s) (init st requests)).
  - apply exclusive_init.
  - intros y z _ Hstep Hy. now apply (exclusive_step w y z).
Qed.

End Serialisation.

(** C8: while one [discover_topics] call is inside its
    subscribe-collect-unsubscribe sequence it holds the lock and is the
    only such call; no step of any other call or of the network thread
    removes a topic from the cache or lets another call begin its own
    clear-and-collect; and when the call finishes it returns the cache as
    collected and releases the lock. *)
Theorem C8_discover_calls_do_not_interleave (w : world) (st : MQTTClientWrapper)
    (requests : list (string * Z)) (s s' : Sched.system) (i : nat) :
  rtc (Sched.step w) (Sched.init st requests) s ->
  Sched.dwelling s i ->
  Sched.step w s s' ->
  Sched.locked s = true /\
  (forall j, Sched.dwelling s j -> j = i) /\
  (forall j, Sched.dwelling s' j -> j = i) /\
  (forall t, is_Some (messages (Sched.self s) !! t) ->
             is_Some (messages (Sched.self s') !! t)) /\
  (forall r, Sched.tasks s' !! i = Some (Sched.Finished r) ->
             r = Returned (messages (Sched.self s)) /\ Sched.locked s' = false).
Proof.
  intros Hreach Hi Hstep.
  pose proof (exclusive_reachable w st requests s Hreach) as [Hl Hu].
  assert (Hlocked : Sched.locked s = true) by (apply Hl; eauto).
  split; [assumption|]. split; [intros j Hj; now apply Hu|].
  destruct Hi as [p Hi].
  destruct Hstep as
    [s k q t st' Hk He | s k q t st' Hk He Hfree | s k q t st' Hk He Hfree
    | s k q t Hk Hfree | s k q Hk | s a]; simpl; try congruence.
  - (* another call finds the broker gone *)
    assert (Hki : k <> i) by (intros ->; congruence).
    split; [|split].
    + intros j [x H]. simpl in H.
      apply dwelling_insert_other in H as [_ H]; [|discriminate].
      apply Hu; [now exists x | now exists p].
    + intros tp. replace st' with (snd (ensure_connected w (Sched.self s))) by now rewrite He.
      now rewrite (proj1 (ensure_connected_frame w (Sched.self s))).
    + intros r. rewrite list_lookup_insert_ne by assumption. congruence.
  - (* another call starts and has to wait for the lock *)
    assert (Hki : k <> i) by (intros ->; congruence).
    split; [|split].
    + intros j [x H]. simpl in H.
      apply dwelling_insert_other in H as [_ H]; [|discriminate].
      apply Hu; [now exists x | now exists p].
    + intros tp. replace st' with (snd (ensure_connected w (Sched.self s))) by now rewrite He.
      now rewrite (proj1 (ensure_connected_frame w (Sched.self s))).
    + intros r. rewrite list_lookup_insert_ne by assumption. congruence.
  - (* the call wakes up *)
    assert (k = i) as -> by (apply Hu; [now exists q | now exists p]).
    split; [|split].
    + intros j [x H]. simpl in H.
      apply dwelling_insert_other in H as [Hne H]; [|discriminate].
      apply Hu; [now exists x | now exists p].
    + auto.
    + intros r. rewrite list_lookup_insert_eq by (now apply lookup_lt_Some in Hi).
      intros [= <-]. auto.
  - (* a message arrives *)
    split; [|split].
    + intros j Hj. apply Hu; [exact Hj | now exists p].
    + intros tp Ht. apply lookup_insert_is_Some'. now right.
    + congruence.
Qed.

(** Two calls: the first is in its dwell, the second starts and is made to
    wait for the lock. *)
Lemma C8_discover_calls_do_not_interleave_witness :
  Sched.locked Sample.first_dwelling = true /\
  (forall j, Sched.dwelling Sample.second_blocked j -> j = 0%nat).
Proof.
  destruct (C8_discover_calls_do_not_interleave Sample.quiet Sample.online
              [("#", 3000); ("#", 3000)] Sample.first_dwelling Sample.second_blocked 0)
    as (H1 & _ & H3 & _).
  - apply rtc_once.
    exact (Sched.step_start Sample.quiet Sample.two_calls 0 "#" 3000 Sample.online
             eq_refl eq_refl eq_refl).
  - exists "#". reflexivity.
  - exact (Sched.step_blocked Sample.quiet Sample.first_dwelling 1 "#" 3000
             (Sched.self Sample.first_dwelling) eq_refl eq_refl eq_refl).
  - split; [exact H1 | exact H3].
Defined.


(** * Further properties of the server *)

(** ** Connection management *)

(** X1: [ensure_connected] answers with the value the [connected] flag has
    afterwards and never touches the cache.  On a connected wrapper it does
    nothing at all; otherwise it makes one connection attempt: [connect],
    followed by [loop_start] unless [connect] raised. *)
Theorem ensure_connected_answer (w : world) (st : MQTTClientWrapper) :
  let r := ensure_connected w st in
  fst r = connected (snd r) /\
  messages (snd r) = messages st /\
  (if connected st then r = (true, st)
   else calls (snd r) =
        (calls st ++ CallConnect :: (if connect_raises w then [] else [CallLoopStart]))%list).
Proof.
  unfold ensure_connected, connect, _on_connect.
  destruct (connected st) eqn:Hc; simpl; [auto|].
  destruct (connect_raises w); simpl; [auto|].
  destruct (connack w) as [rc|]; simpl;
    [destruct ((rc =? 0) || negb (is_failure rc)); simpl|];
    rewrite <- app_assoc; auto.
Qed.




Lemma dict_get_found k d default v :
  dict_get k d default = v -> v = default \/ In (k, v) d.
Proof.
  induction d as [|[k' v'] d IH]; simpl; [auto|].
  destruct (Z.eqb_spec k k') as [->|Hne].
  - intros ->. auto.
  - intros H. destruct (IH H); auto.
Qed.

(** X3: among the integer reason codes, 0 and 16 are the only ones that
    [_get_reason_string] names a normal disconnection, so they are the
    only ones [_on_disconnect] logs without a warning; a code that is not
    in the table is named "Unknown (code)". *)
Theorem normal_disconnection_codes (n : Z) :
  (_get_reason_string (ReasonInt n) = "Normal disconnection" <-> n = 0 \/ n = 16) /\
  (_on_disconnect_level (ReasonInt n) = INFO <-> n = 0 \/ n = 16) /\
  (In n (map fst reason_map) \/
   _get_reason_string (ReasonInt n) = "Unknown (" +:+ Py.str_of_Z n +:+ ")").
Proof.
  assert (Hname : _get_reason_string (ReasonInt n) = "Normal disconnection" <->
                  n = 0 \/ n = 16).
  { split.
    - unfold _get_reason_string. intros H.
      assert (Hk : (if n =? 0 then 0 else n) = n) by (destruct (Z.eqb_spec n 0); congruence).
      rewrite Hk in H. apply dict_get_found in H as [H | H]; [discriminate|].
      unfold reason_map in H. simpl in H.
      repeat (destruct H as [H | H];
              [first [discriminate H | injection H as <-; auto]|]).
      contradiction.
    - intros [-> | ->]; reflexivity. }
  split; [exact Hname|]. split.
  - unfold _on_disconnect_level. cbv zeta. split.
    + destruct (Z.eqb_spec n 0) as [->|Hne]; [auto|].
      destruct (String.eqb_spec (_get_reason_string (ReasonInt n)) "Normal disconnection")
        as [H|H]; [intros _; now apply Hname | simpl; discriminate].
    + intros H. apply Hname in H. rewrite H. rewrite String.eqb_refl.
      now rewrite orb_true_r.
  - unfold _get_reason_string.
    assert (Hk : (if n =? 0 then 0 else n) = n) by (destruct (Z.eqb_spec n 0); congruence).
    rewrite Hk. generalize ("Unknown (" +:+ Py.str_of_Z n +:+ ")"). intros default.
    induction reason_map as [|[k v] d IH]; simpl; [auto|].
    destruct (Z.eqb_spec n k) as [->|Hne]; [auto|].
    destruct IH; auto.
Qed.

(** ** The cache under a stream of callbacks *)

Lemma messages_run_callbacks (cbs : list callback) (st : MQTTClientWrapper) :
  messages (foldl run_callback st cbs) = cache_after (messages st) (arrivals_of cbs).
Proof.
  revert st; induction cbs as [|cb cbs IH]; intros st; simpl; [reflexivity|].
  rewrite IH. destruct cb as [rc | rc | time message]; simpl; try reflexivity.
  unfold _on_connect. now destruct ((rc =? 0) || negb (is_failure rc)).
Qed.

Lemma latest_topic t l s : latest t l = Some s -> snap_topic s = t.
Proof.
  induction l as [|a l IH]; simpl; [discriminate|].
  destruct (latest t l); [intros [= <-]; now apply IH|].
  destruct (String.eqb_spec (msg_topic (packet a)) t) as [<-|]; [|discriminate].
  now intros [= <-].
Qed.

(** X4: whatever the network thread does (connections, disconnections,
    messages, in any order), the cache afterwards holds for every topic
    the snapshot of the last message received on it, filed under the topic
    the snapshot itself names; a topic on which nothing was received keeps
    the entry it had. *)
Theorem cache_holds_last_message (cbs : list callback) (st : MQTTClientWrapper)
    (t : string) :
  messages (foldl run_callback st cbs) !! t =
    match latest t (arrivals_of cbs) with
    | Some s => Some s
    | None => messages st !! t
    end /\
  (forall s, latest t (arrivals_of cbs) = Some s -> snap_topic s = t).
Proof.
  split.
  - rewrite messages_run_callbacks. apply lookup_cache_after.
  - intros s. apply latest_topic.
Qed.

(** ** Listings *)

Lemma str_take_length n s : String.length (str_take n s) = Nat.min n (String.length s).
Proof.
  revert s; induction n as [|n IH]; intros [|c s]; simpl; auto.
Qed.

Lemma append_length s t :
  String.length (s +:+ t) = (String.length s + String.length t)%nat.
Proof. induction s as [|c s IH]; simpl; auto. Qed.

Lemma str_take_prefix n s : exists rest, s = str_take n s +:+ rest.
Proof.
  revert s; induction n as [|n IH]; intros [|c s]; simpl; eauto.
  destruct (IH s) as [rest H]. exists rest. now rewrite <- H.
Qed.

(** X5: a payload of at most 100 characters is listed as it is; a longer
    one is cut to its first 100 characters followed by three dots, so a
    listed payload never has more than 103 characters. *)
Theorem truncate_payload_bounds (payload : string) :
  (String.length (truncate_payload payload) <= 103)%nat /\
  (if (String.length payload <=? 100)%nat
   then truncate_payload payload = payload
   else exists rest, payload = str_take 100 payload +:+ rest /\
                     truncate_payload payload = str_take 100 payload +:+ "..." /\
                     String.length (truncate_payload payload) = 103%nat).
Proof.
  unfold truncate_payload.
  destruct (Nat.ltb_spec 100 (String.length payload)) as [Hlong | Hshort].
  - rewrite append_length, str_take_length, Nat.min_l by lia.
    replace (String.length payload <=? 100)%nat with false
      by (symmetry; apply Nat.leb_gt; lia).
    split; [simpl String.length; lia|].
    destruct (str_take_prefix 100 payload) as [rest H]. exists rest.
    repeat split; exact H.
  - replace (String.length payload <=? 100)%nat with true
      by (symmetry; apply Nat.leb_le; lia).
    split; [lia | reflexivity].
Qed.

(** ** Discovery sweeps that succeed *)

Lemma messages_record_call c st : messages (record_call c st) = messages st.
Proof. reflexivity. Qed.

Lemma tick_record_call c st : tick (record_call c st) = tick st.
Proof. reflexivity. Qed.

Lemma now_record_call c st : now (record_call c st) = now st.
Proof. reflexivity. Qed.

Lemma calls_record_call c st : calls (record_call c st) = (calls st ++ [c])%list.
Proof. reflexivity. Qed.

(** X6: a [discover_topics] call whose subscription is accepted returns
    the cache as it is after the dwell, and that holds exactly the topics
    on which a message arrived during the dwell, each with its last
    message: nothing cached before the call is listed. *)
Theorem discover_topics_result (w : world) (base_path : string) (timeout : Z)
    (st st1 : MQTTClientWrapper) :
  ensure_connected w st = (true, st1) ->
  subscribe_rc w base_path = MQTT_ERR_SUCCESS ->
  exists result st',
    discover_topics w base_path timeout st = (Returned result, st') /\
    result = messages st' /\
    (forall t, result !! t = latest t (arrivals w (tick st1))).
Proof.
  intros Hc Hrc. unfold discover_topics, discover_enter. rewrite Hc, Hrc.
  change (MQTT_ERR_SUCCESS =? MQTT_ERR_SUCCESS) with true. cbv beta iota zeta.
  simpl negb. cbv iota. unfold discover_exit. cbv beta iota zeta.
  eexists. eexists. split; [reflexivity|]. split; [reflexivity|].
  intros t. rewrite messages_record_call, suspend_messages. simpl.
  rewrite lookup_cache_after, lookup_empty. now destruct (latest t _).
Qed.

Lemma discover_topics_result_witness :
  exists result st',
    discover_topics Sample2.plant "#" 2000 Sample.online_cached = (Returned result, st') /\
    result = messages st' /\
    (forall t, result !! t = latest t (arrivals Sample2.plant (tick Sample.online_cached))).
Proof.
  apply (discover_topics_result Sample2.plant "#" 2000 Sample.online_cached
           Sample.online_cached); reflexivity.
Defined.

(** X7: such a call always costs its full dwell: it is suspended exactly
    once, for at least [timeout], whether messages arrive or not, and it
    makes exactly two calls on the client, [subscribe] at QoS 1 and
    [unsubscribe], on the pattern it was given. *)
Theorem discover_topics_dwell (w : world) (base_path : string) (timeout : Z)
    (st st1 : MQTTClientWrapper) :
  ensure_connected w st = (true, st1) ->
  subscribe_rc w base_path = MQTT_ERR_SUCCESS ->
  let st' := snd (discover_topics w base_path timeout st) in
  tick st' = S (tick st1) /\
  now st1 + timeout <= now st' /\
  calls st' = (calls st1 ++ [CallSubscribe base_path 1; CallUnsubscribe base_path])%list.
Proof.
  intros Hc Hrc. unfold discover_topics, discover_enter. rewrite Hc, Hrc.
  change (MQTT_ERR_SUCCESS =? MQTT_ERR_SUCCESS) with true. cbv beta iota zeta.
  simpl negb. cbv iota. unfold discover_exit. cbv beta iota zeta.
  cbn [snd].
  rewrite tick_record_call, now_record_call, calls_record_call.
  rewrite suspend_tick, suspend_calls.
  split; [reflexivity|]. split.
  - etransitivity; [|apply suspend_now]. simpl. lia.
  - simpl. now rewrite <- app_assoc.
Qed.

Lemma discover_topics_dwell_witness :
  let st' := snd (discover_topics Sample2.plant "#" 2000 Sample.online) in
  tick st' = 1%nat /\ now Sample.online + 2000 <= now st' /\
  calls st' = (calls Sample.online ++ [CallSubscribe "#" 1; CallUnsubscribe "#"])%list.
Proof.
  apply (discover_topics_dwell Sample2.plant "#" 2000 Sample.online Sample.online);
    reflexivity.
Defined.

(** ** Single-topic reads *)

Section ReadPaths.

Implicit Types (w : world) (st : MQTTClientWrapper).

(** The call up to its polling loop, when the wrapper is connected. *)
Lemma get_topic_value_prelude w topic timeout st st1 :
  ensure_connected w st = (true, st1) ->
  exists st2,
    messages st2 = delete topic (messages st1) /\
    tick st2 = tick st1 /\ now st2 = now st1 /\
    calls st2 = (calls st1 ++ [CallSubscribe topic 1])%list /\
    forall fuel,
      get_topic_value w fuel topic timeout st =
      if negb (subscribe_rc w topic =? MQTT_ERR_SUCCESS)
      then Some (Raised (Exception_ ("Failed to subscribe to " +:+ topic)), st2)
      else match poll w fuel topic (now st2) timeout st2 with
           | None => None
           | Some st3 =>
               Some (Returned (messages (record_call (CallUnsubscribe topic) st3) !! topic),
                     record_call (CallUnsubscribe topic) st3)
           end.
Proof.
  intros Hc.
  exists (record_call (CallSubscribe topic 1)
            (set_message_event false
               (if bool_decide (is_Some (messages st1 !! topic))
                then set_messages (delete topic (messages st1)) st1 else st1))).
  split; [|split; [|split; [|split]]].
  - simpl. case_bool_decide as Hin; [reflexivity|].
    symmetry. apply delete_id. destruct (messages st1 !! topic) eqn:E; [|reflexivity].
    exfalso. apply Hin. eauto.
  - simpl. now case_bool_decide.
  - simpl. now case_bool_decide.
  - simpl. now case_bool_decide.
  - intros fuel. unfold get_topic_value. rewrite Hc. reflexivity.
Qed.

Lemma poll_step w fuel topic start timeout st :
  poll w (S fuel) topic start timeout st =
  if now st - start <? timeout then
    if bool_decide (is_Some (messages st !! topic)) then Some st
    else poll w fuel topic start timeout (suspend w 100 st)
  else Some st.
Proof. reflexivity. Qed.

Lemma dom_cache_after (m : gmap string snapshot) (l : list arrival) :
  dom m ⊆ dom (cache_after m l).
Proof.
  revert m; induction l as [|a l IH]; intros m; [reflexivity|].
  change (cache_after m (a :: l))
    with (cache_after (<[msg_topic (packet a) := snapshot_of (at_time a) (packet a)]> m) l).
  etransitivity; [|apply IH]. rewrite dom_insert. set_solver.
Qed.

End ReadPaths.

(** X8: when the subscription of [get_topic_value] is refused, the call
    raises "Failed to subscribe to <topic>" without waiting; by then it has
    dropped the cached entry of that topic, and of that topic only. *)
Theorem get_topic_value_subscribe_failure (w : world) (fuel : nat) (topic : string)
    (timeout : Z) (st st1 : MQTTClientWrapper) :
  ensure_connected w st = (true, st1) ->
  subscribe_rc w topic <> MQTT_ERR_SUCCESS ->
  exists st',
    get_topic_value w fuel topic timeout st =
      Some (Raised (Exception_ ("Failed to subscribe to " +:+ topic)), st') /\
    messages st' !! topic = None /\
    (forall t, t <> topic -> messages st' !! t = messages st1 !! t) /\
    tick st' = tick st1 /\
    calls st' = (calls st1 ++ [CallSubscribe topic 1])%list.
Proof.
  intros Hc Hrc.
  destruct (get_topic_value_prelude w topic timeout st st1 Hc)
    as (st2 & Hm & Ht & _ & Hcalls & Hrun).
  exists st2. rewrite Hrun. apply Z.eqb_neq in Hrc. rewrite Hrc. simpl.
  split; [reflexivity|]. rewrite Hm.
  split; [apply lookup_delete_eq|].
  split; [intros t Hne; now apply lookup_delete_ne | auto].
Qed.

Lemma get_topic_value_subscribe_failure_witness :
  exists st',
    get_topic_value Sample.dropped 5 "line1/speed" 5000 Sample.online_cached =
      Some (Raised (Exception_ ("Failed to subscribe to " +:+ "line1/speed")), st') /\
    messages st' !! "line1/speed" = None /\
    (forall t, t <> "line1/speed" -> messages st' !! t = messages Sample.online_cached !! t) /\
    tick st' = tick Sample.online_cached /\
    calls st' = (calls Sample.online_cached ++ [CallSubscribe "line1/speed" 1])%list.
Proof.
  apply (get_topic_value_subscribe_failure Sample.dropped 5 "line1/speed" 5000
           Sample.online_cached Sample.online_cached).
  - reflexivity.
  - discriminate.
Defined.

(** X9: a read leaves the entries of all other topics in the cache (their
    values follow the messages that arrive meanwhile), it subscribes to and
    unsubscribes from exactly the topic asked for, and a snapshot it
    returns names that topic. *)
Theorem get_topic_value_other_topics (w : world) (topic : string) (timeout : Z)
    (st st1 : MQTTClientWrapper) :
  ensure_connected w st = (true, st1) ->
  subscribe_rc w topic = MQTT_ERR_SUCCESS ->
  exists r st',
    get_topic_value w (poll_fuel timeout) topic timeout st = Some (Returned r, st') /\
    (forall s, r = Some s -> snap_topic s = topic) /\
    (forall t, t <> topic ->
       messages st' !! t =
       match latest t (window w (tick st1) (tick st')) with
       | Some s => Some s
       | None => messages st1 !! t
       end) /\
    calls st' = (calls st1 ++ [CallSubscribe topic 1; CallUnsubscribe topic])%list.
Proof.
  intros Hc Hrc.
  destruct (get_topic_value_prelude w topic timeout st st1 Hc)
    as (st2 & Hm2 & Ht2 & Hn2 & Hcalls & Hrun).
  destruct (poll_fuel_enough timeout) as [Hf1 Hf2].
  destruct (poll_spec w topic (now st2) timeout (poll_fuel timeout) st2)
    as (st3 & Hp & Ht & Hm & Hc3 & _ & _); [assumption | lia |].
  rewrite Hrun, Hrc, Hp. change (MQTT_ERR_SUCCESS =? MQTT_ERR_SUCCESS) with true.
  simpl negb. cbv iota.
  eexists. eexists. split; [reflexivity|].
  simpl messages. simpl tick. simpl calls. rewrite Hm, Hm2, Ht2.
  split; [|split].
  - intros s. rewrite lookup_cache_after, lookup_delete_eq.
    destruct (latest topic _) eqn:E; [|discriminate].
    intros [= <-]. now apply latest_topic in E.
  - intros t Hne. rewrite lookup_cache_after. now rewrite lookup_delete_ne.
  - rewrite Hc3, Hcalls. now rewrite <- app_assoc.
Qed.

Lemma get_topic_value_other_topics_witness :
  exists r st',
    get_topic_value Sample2.plant (poll_fuel 2000) "line1/speed" 2000 Sample.online_cached
      = Some (Returned r, st') /\
    (forall s, r = Some s -> snap_topic s = "line1/speed").
Proof.
  destruct (get_topic_value_other_topics Sample2.plant "line1/speed" 2000
              Sample.online_cached Sample.online_cached) as (r & st' & H1 & H2 & _).
  - reflexivity.
  - reflexivity.
  - exists r, st'. split; [exact H1 | exact H2].
Defined.

(** X10: with a timeout of zero or less the polling loop is not entered:
    the call subscribes, unsubscribes and answers "not found" at once,
    even if a value for the topic was cached before the call. *)
Theorem get_topic_value_without_wait (w : world) (fuel : nat) (topic : string)
    (timeout : Z) (st st1 : MQTTClientWrapper) :
  ensure_connected w st = (true, st1) ->
  subscribe_rc w topic = MQTT_ERR_SUCCESS ->
  timeout <= 0 ->
  (1 <= fuel)%nat ->
  exists st',
    get_topic_value w fuel topic timeout st = Some (Returned None, st') /\
    tick st' = tick st1 /\ now st' = now st1.
Proof.
  intros Hc Hrc Hto Hfuel.
  destruct (get_topic_value_prelude w topic timeout st st1 Hc)
    as (st2 & Hm2 & Ht2 & Hn2 & Hcalls & Hrun).
  rewrite Hrun, Hrc. change (MQTT_ERR_SUCCESS =? MQTT_ERR_SUCCESS) with true.
  simpl negb. cbv iota.
  destruct fuel as [|fuel]; [lia|]. simpl poll.
  replace (now st2 - now st2 <? timeout) with false
    by (symmetry; apply Z.ltb_ge; lia).
  eexists. split.
  - simpl messages. rewrite Hm2, lookup_delete_eq. reflexivity.
  - simpl. auto.
Qed.

Lemma get_topic_value_without_wait_witness :
  exists st',
    get_topic_value Sample2.plant 1 "sensors/room1/temp" 0 Sample.online_cached
      = Some (Returned None, st') /\
    tick st' = tick Sample.online_cached /\ now st' = now Sample.online_cached.
Proof.
  apply (get_topic_value_without_wait Sample2.plant 1 "sensors/room1/temp" 0
           Sample.online_cached Sample.online_cached).
  - reflexivity.
  - reflexivity.
  - lia.
  - lia.
Defined.

(** X11: a read does not sit out its timeout: when a message on the topic
    arrives during the first poll interval, the call returns after that one
    suspension, with the last such message. *)
Theorem get_topic_value_returns_early (w : world) (topic : string) (timeout : Z)
    (st st1 : MQTTClientWrapper) (a : arrival) :
  ensure_connected w st = (true, st1) ->
  subscribe_rc w topic = MQTT_ERR_SUCCESS ->
  0 < timeout ->
  In a (arrivals w (tick st1)) ->
  msg_topic (packet a) = topic ->
  exists s st',
    get_topic_value w (poll_fuel timeout) topic timeout st = Some (Returned (Some s), st') /\
    latest topic (arrivals w (tick st1)) = Some s /\
    tick st' = S (tick st1).
Proof.
  intros Hc Hrc Hto Hin Ha.
  destruct (get_topic_value_prelude w topic timeout st st1 Hc)
    as (st2 & Hm2 & Ht2 & Hn2 & Hcalls & Hrun).
  destruct (latest topic (arrivals w (tick st1))) as [s|] eqn:Hlatest.
  2:{ apply latest_none in Hlatest. rewrite Forall_forall in Hlatest.
      destruct (Hlatest a); [now apply list_elem_of_In | assumption]. }
  assert (Hfound : messages (suspend w 100 st2) !! topic = Some s).
  { rewrite suspend_messages, lookup_cache_after, Ht2, Hlatest. reflexivity. }
  assert (Hpoll : poll w (poll_fuel timeout) topic (now st2) timeout st2
                  = Some (suspend w 100 st2)).
  { unfold poll_fuel.
    replace (Z.to_nat (timeout / 100) + 2)%nat with (S (S (Z.to_nat (timeout / 100))))
      by lia.
    rewrite poll_step.
    replace (now st2 - now st2 <? timeout) with true
      by (symmetry; apply Z.ltb_lt; lia).
    rewrite bool_decide_eq_false_2
      by (rewrite Hm2, lookup_delete_eq; intros [x Hx]; discriminate).
    rewrite poll_step.
    destruct (now (suspend w 100 st2) - now st2 <? timeout); [|reflexivity].
    rewrite bool_decide_eq_true_2 by (rewrite Hfound; eauto). reflexivity. }
  rewrite Hrun, Hrc, Hpoll. change (MQTT_ERR_SUCCESS =? MQTT_ERR_SUCCESS) with true.
  simpl negb. cbv iota. exists s. eexists. split.
  - rewrite messages_record_call, Hfound. reflexivity.
  - split; [reflexivity|]. now rewrite tick_record_call, suspend_tick, Ht2.
Qed.

Lemma get_topic_value_returns_early_witness :
  exists s st',
    get_topic_value Sample2.plant (poll_fuel 5000) "line1/speed" 5000 Sample.online
      = Some (Returned (Some s), st') /\
    latest "line1/speed" (arrivals Sample2.plant (tick Sample.online)) = Some s /\
    tick st' = S (tick Sample.online).
Proof.
  apply (get_topic_value_returns_early Sample2.plant "line1/speed" 5000
           Sample.online Sample.online {| at_time := 10; packet := Sample2.speed10 |}).
  - reflexivity.
  - reflexivity.
  - lia.
  - left. reflexivity.
  - reflexivity.
Defined.

(** ** Publishing *)




(** X13: publishing never takes a topic out of the cache, whatever the
    arguments and however the call ends. *)
Theorem publish_message_keeps_cache (w : world) (topic payload : string)
    (retain : bool) (qos : Z) (st : MQTTClientWrapper) :
  dom (messages st) ⊆ dom (messages (snd (publish_message w topic payload retain qos st))).
Proof.
  unfold publish_message.
  pose proof (proj1 (ensure_connected_frame w st)) as Hm.
  destruct (ensure_connected w st) as [ok st1]. simpl in Hm. rewrite <- Hm.
  destruct ok; simpl negb; cbv iota; [|reflexivity].
  destruct (negb (bool_decide (qos ∈ [0; 1; 2]))); [reflexivity|].
  destruct (negb (Py.truthy topic) || negb (Py.truthy (Py.strip topic))); [reflexivity|].
  destruct (Py.contains_char "#" topic || Py.contains_char "+" topic); [reflexivity|].
  cbv zeta. destruct (0 <? qos).
  - destruct (wait_for_publish _) as [e|]; [reflexivity|].
    destruct (info_rc _ =? MQTT_ERR_SUCCESS); cbn [snd]; unfold block;
      rewrite suspend_messages; apply dom_cache_after.
  - destruct (info_rc _ =? MQTT_ERR_SUCCESS); reflexivity.
Qed.

(** X14: [handle_publish_message] reports a publication only when the
    arguments held a topic and a payload, [client.publish] was called with
    them (retain false and QoS 1 when they were not given), the topic has
    no wildcard, and the broker's result code was success; the reported
    message identifier is the broker's. *)
Theorem published_reply_sound (w : world) (arguments : publish_arguments)
    (st st' : MQTTClientWrapper) (result : publish_result) :
  handle_publish_message w arguments st = (ReplyPublished result, st') ->
  exists topic payload,
    let retain := default false (arg_retain arguments) in
    let qos := default 1 (arg_qos arguments) in
    let info := publish_info w topic payload qos retain in
    arg_topic arguments = Some topic /\
    arg_payload arguments = Some payload /\
    result = PublishSuccess topic payload retain qos (info_mid info) (now st') /\
    info_rc info = MQTT_ERR_SUCCESS /\
    In (CallPublish topic payload qos retain) (calls st') /\
    Py.contains_char "+" topic = false /\ Py.contains_char "#" topic = false /\
    qos ∈ [0; 1; 2].
Proof.
  unfold handle_publish_message. cbv zeta.
  destruct (arg_topic arguments) as [topic|]; [|discriminate].
  destruct (negb (Py.truthy topic)); [discriminate|].
  destruct (arg_payload arguments) as [payload|]; [|discriminate].
  set (retain := default false (arg_retain arguments)).
  set (qos := default 1 (arg_qos arguments)).
  unfold publish_message.
  destruct (ensure_connected w st) as [ok st1].
  destruct ok; simpl negb; cbv iota; [|discriminate].
  case_bool_decide as Hq; simpl negb; cbv iota; [|discriminate].
  destruct (negb (Py.truthy topic) || negb (Py.truthy (Py.strip topic))); [discriminate|].
  destruct (Py.contains_char "#" topic) eqn:Hhash; [discriminate|].
  destruct (Py.contains_char "+" topic) eqn:Hplus; [discriminate|].
  simpl orb. cbv iota zeta.
  assert (Hdone : forall stx,
            In (CallPublish topic payload qos retain) (calls stx) ->
            info_rc (publish_info w topic payload qos retain) = MQTT_ERR_SUCCESS ->
            (ReplyPublished (PublishSuccess topic payload retain qos
               (info_mid (publish_info w topic payload qos retain)) (now stx)), stx)
              = (ReplyPublished result, st') ->
            exists topic0 payload0,
              Some topic = Some topic0 /\ Some payload = Some payload0 /\
              result = PublishSuccess topic0 payload0 retain qos
                         (info_mid (publish_info w topic0 payload0 qos retain)) (now st') /\
              info_rc (publish_info w topic0 payload0 qos retain) = MQTT_ERR_SUCCESS /\
              In (CallPublish topic0 payload0 qos retain) (calls st') /\
              Py.contains_char "+" topic0 = false /\ Py.contains_char "#" topic0 = false /\
              qos ∈ [0; 1; 2]).
  { intros stx Hin Hrc [= <- <-]. exists topic, payload. repeat split; auto. }
  destruct (0 <? qos).
  - destruct (wait_for_publish _) as [e|]; [discriminate|].
    destruct (Z.eqb_spec (info_rc (publish_info w topic payload qos retain)) MQTT_ERR_SUCCESS)
      as [Hrc|Hrc]; [|discriminate].
    apply Hdone; [|assumption].
    unfold block. rewrite suspend_calls, !calls_record_call.
    rewrite !in_app_iff. simpl. auto.
  - destruct (Z.eqb_spec (info_rc (publish_info w topic payload qos retain)) MQTT_ERR_SUCCESS)
      as [Hrc|Hrc]; [|discriminate].
    apply Hdone; [|assumption].
    rewrite calls_record_call, in_app_iff. simpl. auto.
Qed.

Lemma published_reply_sound_witness :
  exists topic payload,
    arg_topic {| arg_topic := Some "a/b"; arg_payload := Some "v";
                 arg_retain := None; arg_qos := None |} = Some topic /\
    arg_payload {| arg_topic := Some "a/b"; arg_payload := Some "v";
                   arg_retain := None; arg_qos := None |} = Some payload /\
    info_rc (publish_info Sample.quiet topic payload 1 false) = MQTT_ERR_SUCCESS.
Proof.
  destruct (published_reply_sound Sample.quiet
              {| arg_topic := Some "a/b"; arg_payload := Some "v";
                 arg_retain := None; arg_qos := None |}
              Sample.online
              (snd (handle_publish_message Sample.quiet
                      {| arg_topic := Some "a/b"; arg_payload := Some "v";
                         arg_retain := None; arg_qos := None |} Sample.online))
              (PublishSuccess "a/b" "v" false 1 1 0))
    as (topic & payload & H1 & H2 & _ & H4 & _).
  - reflexivity.
  - exists topic, payload. auto.
Defined.

(** ** Broker wildcards in patterns of ordinary characters *)

Section BrokerTier.

Import Re.

Implicit Types (p q s t u v : string) (c : ascii).

Lemma plain_char_inv c :
  plain_char c = true ->
  Ascii.eqb c "#" = false /\ Ascii.eqb c "+" = false /\ Ascii.eqb c "*" = false /\
  Ascii.eqb c "?" = false /\ Ascii.eqb c "[" = false /\ Ascii.eqb c "." = false /\
  is_special c = false.
Proof.
  unfold plain_char. intros H. apply negb_true_iff in H.
  repeat (apply orb_false_iff in H as [H ?]). auto 10.
Qed.

Lemma mqtt_pattern_app p q : mqtt_pattern (p +:+ q) = mqtt_pattern p +:+ mqtt_pattern q.
Proof. unfold mqtt_pattern. now rewrite !replace_char_app. Qed.

Lemma mqtt_pattern_plain p : plain p = true -> mqtt_pattern p = p.
Proof.
  induction p as [|c p IH]; [reflexivity|]. simpl. intros H.
  apply andb_true_iff in H as [Hc Hp].
  apply plain_char_inv in Hc as (Hhash & Hplus & _).
  rewrite mqtt_pattern_cons, Hplus, Hhash, (IH Hp). reflexivity.
Qed.

Lemma read_plain p rest (b : bool) acc :
  plain p = true ->
  read (p +:+ rest) (Normal b) acc =
  read rest (Normal (b || Py.truthy p)) (List.rev (lits p) ++ acc)%list.
Proof.
  revert b acc; induction p as [|c p IH]; intros b acc H.
  - simpl. now rewrite orb_false_r.
  - simpl in H. apply andb_true_iff in H as [Hc Hp].
    apply plain_char_inv in Hc as (_ & Hplus & Hstar & Hopt & Hopen & Hdot & Hsp).
    change (read (String c p +:+ rest) (Normal b) acc)
      with (match is_quant c with
            | Some qu =>
                match b, acc with
                | true, (a, _) :: acc' => read (p +:+ rest) (Normal false) ((a, qu) :: acc')
                | _, _ => None
                end
            | None =>
                if Ascii.eqb c "[" then read (p +:+ rest) ClassOpen acc
                else if Ascii.eqb c "." then read (p +:+ rest) (Normal true) ((Dot, One) :: acc)
                else if is_special c then None
                else read (p +:+ rest) (Normal true) ((Lit c, One) :: acc)
            end).
    unfold is_quant. rewrite Hstar, Hplus, Hopt, Hopen, Hdot, Hsp.
    rewrite (IH true _ Hp). simpl. rewrite orb_true_r, <- app_assoc. reflexivity.
Qed.

Lemma read_plain_end p (b : bool) acc :
  plain p = true ->
  read p (Normal b) acc = Some (List.rev acc ++ lits p)%list.
Proof.
  intros H. rewrite <- (append_nil_r p) at 1. rewrite (read_plain p "" b acc H).
  simpl. now rewrite rev_app_distr, rev_involutive.
Qed.

Lemma read_dot_star (b : bool) acc :
  read ".*" (Normal b) acc = Some (List.rev acc ++ [(Dot, Star)])%list.
Proof. reflexivity. Qed.

Lemma read_segment rest (b : bool) acc :
  read ("[^/]+" +:+ rest) (Normal b) acc =
  read rest (Normal false) ((NoneOf ["/"%char], Plus) :: acc).
Proof. reflexivity. Qed.

Lemma unsnoc_snoc s c : unsnoc (s +:+ String c "") = Some (s, c).
Proof.
  induction s as [|d s IH]; [reflexivity|].
  change (unsnoc (String d s +:+ String c ""))
    with (match unsnoc (s +:+ String c "") with
          | None => Some (EmptyString, d)
          | Some (i, l) => Some (String d i, l)
          end).
  now rewrite IH.
Qed.

Lemma compile_anchored body :
  compile ("^" +:+ body +:+ "$") = read body (Normal false) [].
Proof.
  change ("^" +:+ body +:+ "$") with (String "^" (body +:+ String "$" "")).
  unfold compile. now rewrite unsnoc_snoc.
Qed.

Lemma run_lits p k t :
  run (lits p) k t = true <-> exists rest, t = p +:+ rest /\ k rest = true.
Proof.
  revert t; induction p as [|c p IH]; intros t; simpl.
  - split; [intros H; now exists t | now intros (rest & -> & H)].
  - rewrite one_split. split.
    + intros (d & x & -> & Hd & Hx). apply Ascii.eqb_eq in Hd as ->.
      apply IH in Hx as (rest & -> & Hk). now exists rest.
    + intros (rest & -> & Hk). exists c, (p +:+ rest).
      repeat split; [apply Ascii.eqb_refl | apply IH; now exists rest].
Qed.

Lemma all_accept_cons (a : atom) c s :
  all_accept a (String c s) = accepts a c && all_accept a s.
Proof. reflexivity. Qed.

Lemma all_accept_dot s : all_accept Dot s = negb (Py.contains_char newline s).
Proof.
  induction s as [|c s IH]; [reflexivity|]. simpl.
  now rewrite IH, negb_orb, (Ascii.eqb_sym newline c).
Qed.

Lemma all_accept_segment s :
  all_accept (NoneOf ["/"%char]) s = negb (Py.contains_char "/" s).
Proof.
  induction s as [|c s IH]; [reflexivity|]. simpl.
  now rewrite IH, orb_false_r, negb_orb, (Ascii.eqb_sym "/" c).
Qed.

Lemma at_dollar_line_end v : at_dollar v = true <-> line_end v.
Proof.
  unfold line_end. destruct v as [|c [|d v]]; simpl.
  - split; auto.
  - rewrite Ascii.eqb_eq. split.
    + intros ->. now right.
    + intros [H | H]; [discriminate | now injection H].
  - split; [discriminate | intros [H | H]; discriminate].
Qed.

Lemma wildcard_tier pattern t :
  Py.contains_char "+" pattern || Py.contains_char "#" pattern = true ->
  topic_matches pattern t = Re.match_ ("^" +:+ mqtt_pattern pattern +:+ "$") t.
Proof.
  intros H. unfold topic_matches, has_wildcards. simpl existsb.
  rewrite H.
  destruct (Py.contains_char "+" pattern), (Py.contains_char "#" pattern);
    try discriminate; now rewrite ?orb_true_r.
Qed.

End BrokerTier.

(** X15: for a prefix [p] of ordinary characters, the search pattern
    [p#] matches exactly the topic paths that begin with [p] and go on
    without a line break, a final one apart.  So ["a/#"] matches what lies
    below ["a/"], never ["a"] itself, and ["a#"] also matches ["ab"]. *)
Theorem broker_hash_matches (p t : string) :
  plain p = true ->
  is_Some (topic_matches (p +:+ "#") t) /\
  (topic_matches (p +:+ "#") t = Some true <->
   exists u v, t = p +:+ u +:+ v /\
               Py.contains_char Re.newline u = false /\ line_end v).
Proof.
  intros Hp.
  rewrite wildcard_tier
    by (rewrite !contains_char_app; simpl; now rewrite !orb_true_r).
  rewrite mqtt_pattern_app, (mqtt_pattern_plain p Hp).
  change (mqtt_pattern "#") with ".*".
  unfold Re.match_. rewrite compile_anchored, (read_plain p ".*" false [] Hp).
  rewrite read_dot_star, app_nil_r, rev_involutive.
  split; [eauto|].
  rewrite run_app. split.
  - intros [= H]. apply run_lits in H as (rest & -> & H). simpl in H.
    apply star_split in H as (u & v & -> & Hu & Hv).
    exists u, v. rewrite all_accept_dot in Hu. apply negb_true_iff in Hu.
    split; [reflexivity|]. split; [assumption | now apply at_dollar_line_end].
  - intros (u & v & -> & Hu & Hv). f_equal. apply run_lits.
    exists (u +:+ v). split; [reflexivity|]. simpl.
    apply star_split. exists u, v. rewrite all_accept_dot, Hu.
    split; [reflexivity|]. split; [reflexivity | now apply at_dollar_line_end].
Qed.

Lemma broker_hash_matches_witness :
  is_Some (topic_matches ("a/" +:+ "#") "a") /\
  (topic_matches ("a/" +:+ "#") "a/b/c" = Some true <->
   exists u v, "a/b/c" = "a/" +:+ u +:+ v /\
               Py.contains_char Re.newline u = false /\ line_end v).
Proof.
  split.
  - apply (broker_hash_matches "a/" "a"). reflexivity.
  - apply (broker_hash_matches "a/" "a/b/c"). reflexivity.
Defined.

(** X16: for [p] and [q] of ordinary characters, the search pattern
    [p+q] matches exactly the topic paths made of [p], a non-empty run of
    characters without [/], and [q] (a final line break apart): the [+]
    stands for one non-empty level or part of a level, never for an empty
    one and never across a [/]. *)
Theorem broker_plus_matches (p q t : string) :
  plain p = true ->
  plain q = true ->
  is_Some (topic_matches (p +:+ "+" +:+ q) t) /\
  (topic_matches (p +:+ "+" +:+ q) t = Some true <->
   exists seg v, t = p +:+ seg +:+ q +:+ v /\
                 seg <> "" /\ Py.contains_char "/" seg = false /\ line_end v).
Proof.
  intros Hp Hq.
  rewrite wildcard_tier
    by (rewrite !contains_char_app; simpl; now rewrite !orb_true_r).
  rewrite !mqtt_pattern_app, (mqtt_pattern_plain p Hp), (mqtt_pattern_plain q Hq).
  change (mqtt_pattern "+") with "[^/]+".
  unfold Re.match_. rewrite compile_anchored, (read_plain p _ false [] Hp).
  rewrite read_segment, (read_plain_end q false _ Hq).
  simpl List.rev. rewrite app_nil_r, rev_involutive, <- app_assoc. simpl app.
  split; [eauto|].
  rewrite run_app. split.
  - intros [= H]. apply run_lits in H as (rest & -> & H).
    change (Re.run ((Re.NoneOf ["/"%char], Re.Plus) :: lits q) Re.at_dollar rest)
      with (Re.one (Re.NoneOf ["/"%char])
              (Re.star (Re.NoneOf ["/"%char]) (Re.run (lits q) Re.at_dollar)) rest) in H.
    apply one_split in H as (c & r & -> & Hc & H).
    apply star_split in H as (u & x & -> & Hu & H).
    apply run_lits in H as (v & -> & Hv).
    exists (String c u), v. split; [reflexivity|]. split; [discriminate|]. split.
    + assert (Hseg : Re.all_accept (Re.NoneOf ["/"%char]) (String c u) = true)
        by (rewrite all_accept_cons; now rewrite Hc, Hu).
      rewrite all_accept_segment in Hseg. now apply negb_true_iff in Hseg.
    + now apply at_dollar_line_end.
  - intros (seg & v & -> & Hne & Hseg & Hv). f_equal. apply run_lits.
    exists (seg +:+ q +:+ v). split; [reflexivity|].
    destruct seg as [|c u]; [now destruct Hne|].
    assert (Hall : Re.all_accept (Re.NoneOf ["/"%char]) (String c u) = true)
      by (rewrite all_accept_segment, Hseg; reflexivity).
    rewrite all_accept_cons in Hall. apply andb_true_iff in Hall as [Hc Hu].
    change (Re.run ((Re.NoneOf ["/"%char], Re.Plus) :: lits q) Re.at_dollar
              (String c u +:+ q +:+ v))
      with (Re.one (Re.NoneOf ["/"%char])
              (Re.star (Re.NoneOf ["/"%char]) (Re.run (lits q) Re.at_dollar))
              (String c (u +:+ q +:+ v))).
    apply one_split. exists c, (u +:+ q +:+ v).
    split; [reflexivity|]. split; [exact Hc|].
    apply star_split. exists u, (q +:+ v).
    split; [reflexivity|]. split; [exact Hu|].
    apply run_lits. exists v. split; [reflexivity | now apply at_dollar_line_end].
Qed.

Lemma broker_plus_matches_witness :
  topic_matches ("a/" +:+ "+" +:+ "/c") "a/b/c" = Some true <->
  exists seg v, "a/b/c" = "a/" +:+ seg +:+ "/c" +:+ v /\
                seg <> "" /\ Py.contains_char "/" seg = false /\ line_end v.
Proof.
  apply (broker_plus_matches "a/" "/c" "a/b/c"); reflexivity.
Defined.

(** ** Globs around ordinary text *)

Section GlobTier.

Implicit Types (p t u v : string) (c : ascii).

Lemma plain_lacks c p :
  plain_char c = false -> plain p = true -> Py.contains_char c p = false.
Proof.
  intros Hc. induction p as [|d p IH]; [reflexivity|]. simpl. intros H.
  apply andb_true_iff in H as [Hd Hp]. rewrite (IH Hp), orb_false_r.
  destruct (Ascii.eqb_spec c d) as [->|]; [congruence | reflexivity].
Qed.

Lemma translate_plain p : plain p = true -> Fnmatch.translate p = Some (lits p).
Proof.
  induction p as [|c p IH]; [reflexivity|]. simpl. intros H.
  apply andb_true_iff in H as [Hc Hp].
  apply plain_char_inv in Hc as (_ & _ & Hstar & Hopt & Hopen & _).
  now rewrite Hopen, Hstar, Hopt, (IH Hp).
Qed.

Lemma fnmatch_plain p t : plain p = true -> (Fnmatch.fnmatch t p = Some true <-> t = p).
Proof.
  intros Hp. unfold Fnmatch.fnmatch. rewrite (translate_plain p Hp). split.
  - intros [= H]. apply run_lits in H as (rest & -> & H).
    destruct rest; [now rewrite append_nil_r | discriminate].
  - intros ->. f_equal. apply run_lits. exists "". now rewrite append_nil_r.
Qed.

End GlobTier.

(** X17: for a text [p] of ordinary characters, the search pattern [*p*]
    matches exactly the topic paths that contain [p] letter for letter:
    unlike the keyword search for [p], the glob search is sensitive to
    case. *)
Theorem glob_contains_exact (p t : string) :
  plain p = true ->
  topic_matches ("*" +:+ p +:+ "*") t = Some true <->
  exists u v, t = u +:+ p +:+ v.
Proof.
  intros Hp.
  assert (Hplus : Py.contains_char "+" ("*" +:+ p +:+ "*") = false)
    by (rewrite !contains_char_app, (plain_lacks "+" p eq_refl Hp); reflexivity).
  assert (Hhash : Py.contains_char "#" ("*" +:+ p +:+ "*") = false)
    by (rewrite !contains_char_app, (plain_lacks "#" p eq_refl Hp); reflexivity).
  assert (Hopen : Py.contains_char "[" ("*" +:+ p +:+ "*") = false)
    by (rewrite !contains_char_app, (plain_lacks "[" p eq_refl Hp); reflexivity).
  assert (Hopen' : Py.contains_char "[" p = false) by now apply plain_lacks.
  unfold topic_matches, has_wildcards. simpl existsb. rewrite Hplus, Hhash.
  replace (Py.contains_char "*" ("*" +:+ p +:+ "*")) with true by reflexivity.
  simpl orb. cbv iota.
  rewrite (proj2 (fnmatch_wrapped t _ Hopen)). split.
  - intros (u & b & v & -> & H).
    apply (proj2 (fnmatch_wrapped b p Hopen')) in H as (u' & b' & v' & -> & H).
    apply (fnmatch_plain p b' Hp) in H as ->.
    exists (u +:+ u'), (v' +:+ v). now rewrite !append_assoc.
  - intros (u & v & ->). exists "", (u +:+ p +:+ v), "".
    split; [now rewrite append_nil_r|].
    apply (proj2 (fnmatch_wrapped _ p Hopen')). exists u, p, v.
    split; [reflexivity | now apply fnmatch_plain].
Qed.

Lemma glob_contains_exact_witness :
  (topic_matches ("*" +:+ "speed" +:+ "*") "line1/speed" = Some true <->
   exists u v, "line1/speed" = u +:+ "speed" +:+ v) /\
  topic_matches "*speed*" "line1/SPEED" = Some false /\
  topic_matches "speed" "line1/SPEED" = Some true.
Proof.
  split; [|split; reflexivity].
  apply (glob_contains_exact "speed" "line1/speed"). reflexivity.
Defined.

(** ** Progress of concurrent sweeps *)

Section Progress.

Import Sched.

Lemma insert_changes (ts : list pc) (i : nat) (old x : pc) :
  ts !! i = Some old -> x <> old -> <[i := x]> ts <> ts.
Proof.
  intros Hi Hne Heq. apply (f_equal (fun l => l !! i)) in Heq.
  rewrite list_lookup_insert_eq in Heq by (now apply lookup_lt_Some in Hi).
  congruence.
Qed.

Lemma enter_changes w i p st (ts : list pc) old :
  ts !! i = Some old -> (forall r, old <> Finished r) -> (forall q, old <> Dwelling q) ->
  tasks (enter w i p st ts) <> ts.
Proof.
  intros Hi Hfin Hdw. unfold enter.
  destruct (discover_enter w p st) as [[e|] st']; simpl;
    apply (insert_changes ts i old); auto.
Qed.

End Progress.

(** X18: concurrent sweeps cannot block one another for good.  In every
    reachable state with an unfinished call some call can take a step (a
    waiting call is never left behind a lock that nobody will release),
    and once every call has finished, also those that failed, the lock is
    free. *)
Theorem discover_calls_make_progress (w : world) (st : MQTTClientWrapper)
    (requests : list (string * Z)) (s : Sched.system) :
  rtc (Sched.step w) (Sched.init st requests) s ->
  ((exists i pc, Sched.tasks s !! i = Some pc /\ forall r, pc <> Sched.Finished r) ->
   exists s', Sched.step w s s' /\ Sched.tasks s' <> Sched.tasks s) /\
  ((forall i pc, Sched.tasks s !! i = Some pc -> exists r, pc = Sched.Finished r) ->
   Sched.locked s = false).
Proof.
  intros Hreach.
  pose proof (exclusive_reachable w st requests s Hreach) as [Hl Hu].
  split.
  - intros (i & pc & Hi & Hunfinished).
    assert (Hwake : forall j q, Sched.tasks s !! j = Some (Sched.Dwelling q) ->
              exists s', Sched.step w s s' /\ Sched.tasks s' <> Sched.tasks s).
    { intros j q Hj. eexists. split; [exact (Sched.step_wake w s j q Hj)|].
      simpl. apply (insert_changes _ j (Sched.Dwelling q)); [assumption | discriminate]. }
    destruct pc as [p t | p t | p | r].
    + destruct (ensure_connected w (Sched.self s)) as [ok st1] eqn:He.
      destruct ok.
      * destruct (Sched.locked s) eqn:Hlocked.
        -- eexists. split; [exact (Sched.step_blocked w s i p t st1 Hi He Hlocked)|].
           simpl. apply (insert_changes _ i (Sched.Created p t)); [assumption | discriminate].
        -- eexists. split; [exact (Sched.step_start w s i p t st1 Hi He Hlocked)|].
           apply (enter_changes w i p st1 _ (Sched.Created p t)); [assumption | |]; discriminate.
      * eexists. split; [exact (Sched.step_refused w s i p t st1 Hi He)|].
        simpl. apply (insert_changes _ i (Sched.Created p t)); [assumption | discriminate].
    + destruct (Sched.locked s) eqn:Hlocked.
      * destruct (proj1 Hl eq_refl) as (j & q & Hj). now apply (Hwake j q).
      * eexists. split; [exact (Sched.step_acquire w s i p t Hi Hlocked)|].
        apply (enter_changes w i p _ _ (Sched.WaitingLock p t)); [assumption | |]; discriminate.
    + now apply (Hwake i p).
    + now destruct (Hunfinished r).
  - intros Hall. destruct (Sched.locked s) eqn:Hlocked; [|reflexivity].
    destruct (proj1 Hl eq_refl) as (j & q & Hj).
    destruct (Hall j _ Hj) as [r Hr]. discriminate.
Qed.

Lemma discover_calls_make_progress_witness :
  exists s', Sched.step Sample.quiet Sample.second_blocked s' /\
             Sched.tasks s' <> Sched.tasks Sample.second_blocked.
Proof.
  destruct (discover_calls_make_progress Sample.quiet Sample.online
              [("#", 3000); ("#", 3000)] Sample.second_blocked) as [H _].
  - apply (rtc_l _ _ Sample.first_dwelling).
    + exact (Sched.step_start Sample.quiet Sample.two_calls 0 "#" 3000 Sample.online
               eq_refl eq_refl eq_refl).
    + apply rtc_once.
      exact (Sched.step_blocked Sample.quiet Sample.first_dwelling 1 "#" 3000
               (Sched.self Sample.first_dwelling) eq_refl eq_refl eq_refl).
  - apply H. exists 1%nat, (Sched.WaitingLock "#" 3000). split; [reflexivity | discriminate].
Defined.

Lemma publish_message_keeps_cache_witness :
  dom (messages Sample.online_cached) ⊆
  dom (messages (snd (publish_message Sample2.plant "a/b" "v" false 1 Sample.online_cached))).
Proof.
  exact (publish_message_keeps_cache Sample2.plant "a/b" "v" false 1 Sample.online_cached).
Defined.
